(** * The incremental reconstruction generator of the PCA notebook

    A shallow embedding of [data_reconstruction] from
    [MNIST visualization.ipynb], together with the small part of NumPy and
    of Python's generator protocol that the function relies on.

    Array entries are exact integers: rounding of floating-point arithmetic
    is outside of this development, and statements about the content of
    the elements keep the order in which the code adds and multiplies.
    Arrays live in a store, because the
    generator hands the array bound to [L] itself to its consumer and keeps
    updating it in place. *)

From Stdlib Require Import ZArith List Lia Bool.
From stdpp Require Import base option list gmap.
Import ListNotations.
Local Open Scope Z_scope.

(** ** Two-dimensional arrays *)

Module Np.

(** An array carries its shape, so that an array with no row still has a
    column count (as [data[:, 3:2]] or [pc[3:2, :]] do). *)
Record ndarray := mk_ndarray {
  nrows : nat;
  ncols : nat;
  rows  : list (list Z)
}.

Definition shape (A : ndarray) : nat * nat := (nrows A, ncols A).

(** [A[i, j]] for indices inside the shape. *)
Definition item (A : ndarray) (i j : nat) : Z :=
  nth j (nth i (rows A) []) 0.

(** The array of shape [(n, N)] whose entry [(i, j)] is [f i j]. *)
Definition tabulate (n N : nat) (f : nat -> nat -> Z) : ndarray :=
  {| nrows := n;
     ncols := N;
     rows  := map (fun i => map (fun j => f i j) (seq 0 N)) (seq 0 n) |}.

(** A nested Python list seen as an array. *)
Definition array (l : list (list Z)) : ndarray :=
  {| nrows := length l;
     ncols := match l with [] => 0 | r :: _ => length r end;
     rows  := l |}.

Definition zeros (n N : nat) : ndarray := tabulate n N (fun _ _ => 0).

(** [np.empty((n, N))]: a new array whose entries are whatever the
    allocated block of memory held; [junk] is that content. *)
Definition empty (junk : nat -> nat -> Z) (n N : nat) : ndarray :=
  tabulate n N junk.

(** Python's normalisation of one bound of a slice [a:b] (step 1) over an
    axis of length [len]: a negative bound counts from the end, and the
    outcome is clipped to [0 .. len]. *)
Definition slice_bound (len : nat) (i : Z) : nat :=
  let i' := if i <? 0 then i + Z.of_nat len else i in
  if i' <? 0 then 0%nat
  else if Z.of_nat len <? i' then len
  else Z.to_nat i'.

(** [A[:, a:b]] *)
Definition slice_cols (A : ndarray) (a b : Z) : ndarray :=
  let s := slice_bound (ncols A) a in
  let e := slice_bound (ncols A) b in
  tabulate (nrows A) (e - s) (fun i j => item A i (s + j)).

(** [A[a:b, :]] *)
Definition slice_rows (A : ndarray) (a b : Z) : ndarray :=
  let s := slice_bound (nrows A) a in
  let e := slice_bound (nrows A) b in
  tabulate (e - s) (ncols A) (fun i j => item A (s + i) j).

Definition sumZ (l : list Z) : Z := fold_right Z.add 0 l.

(** Entry [(i, j)] of a matrix product with inner dimension [k]. *)
Definition dot_item (A B : ndarray) (k i j : nat) : Z :=
  sumZ (map (fun x => item A i x * item B x j) (seq 0 k)).

End Np.

(** ** Exceptions and outcomes *)

Inductive exn :=
| ZeroDivisionError
| AssertionError
| ValueError
| StopIteration.

Inductive result (A : Type) :=
| Ok (a : A)
| Raise (e : exn).
Arguments Ok {A} a.
Arguments Raise {A} e.

#[global] Instance result_ret : MRet result := fun _ a => Ok a.
#[global] Instance result_bind : MBind result := fun _ _ k r =>
  match r with
  | Ok a => k a
  | Raise e => Raise e
  end.

Module NpOps.
Import Np.

(** [np.dot(A, B)] on two-dimensional arrays: the matrix product, or a
    [ValueError] when the inner dimensions differ. *)
Definition dot (A B : ndarray) : result ndarray :=
  if Nat.eqb (ncols A) (nrows B)
  then Ok (tabulate (nrows A) (ncols B) (dot_item A B (ncols A)))
  else Raise ValueError.

(** Entrywise sum of two arrays of one shape.  The generator only ever adds
    arrays of shape [(n, N)]; other shapes are reported as [ValueError]
    (NumPy's broadcasting is not modelled). *)
Definition add (A B : ndarray) : result ndarray :=
  if Nat.eqb (nrows A) (nrows B) && Nat.eqb (ncols A) (ncols B)
  then Ok (tabulate (nrows A) (ncols A) (fun i j => item A i j + item B i j))
  else Raise ValueError.

(** Python's floor division on integers. *)
Definition floordiv (a b : Z) : result Z :=
  if b =? 0 then Raise ZeroDivisionError else Ok (a / b).

End NpOps.

(** ** The store *)

(** Arrays are objects: a name is bound to a location, and two names bound
    to one location see each other's in-place updates. *)
Definition loc := nat.
Abbreviation heap := (gmap loc Np.ndarray).

#[global] Instance ndarray_inhabited : Inhabited Np.ndarray :=
  populate (Np.zeros 0 0).

(** A new object is placed at a location that is not in use. *)
Definition alloc (h : heap) (A : Np.ndarray) : loc * heap :=
  let l := fresh (dom h) in (l, <[l := A]> h).

(** ** The generator *)

Section Generator.
Import Np NpOps.

(** What the block handed out by [np.empty] holds. *)
Variable junk : nat -> nat -> Z.

(** The local variables of a suspended call that the rest of the body
    still reads. *)
Record frame := mk_frame {
  f_data : ndarray;
  f_principal_components : ndarray;
  f_by_n : Z;
  f_c : nat;
  f_L : loc;
  f_m : Z
}.

(** A generator object: created and not yet started, suspended at the
    [yield] inside the [while] loop, suspended at the last [yield], or
    finished. *)
Inductive generator :=
| Created (data principal_components : ndarray) (by_n : Z)
| InLoop (f : frame)
| AtLastYield
| Finished.

(** Calling a generator function runs none of its body. *)
Definition data_reconstruction
    (data principal_components : ndarray) (by_n : Z) : generator :=
  Created data principal_components by_n.

(** From the test of the [while] loop to the next [yield].  [L += X]
    updates the array at [L] in place, and the loop yields [L] itself;
    [L + X] after the loop is a new array. *)
Definition run_to_yield (f : frame) (h : heap)
    : result (loc * Z * generator * heap) :=
  let data := f_data f in
  let pc := f_principal_components f in
  let by_n := f_by_n f in
  let c := Z.of_nat (f_c f) in
  let m := f_m f in
  if m + by_n <? c then
    let iteration := m in
    let A := slice_cols data m (m + by_n) in
    let B := slice_rows pc m (m + by_n) in
    X ← dot (slice_cols data m (m + by_n)) (slice_rows pc m (m + by_n));
    L' ← add (h !!! f_L f) X;
    let h' := <[f_L f := L']> h in
    let f' := {| f_data := data; f_principal_components := pc;
                 f_by_n := by_n; f_c := f_c f; f_L := f_L f;
                 f_m := m + by_n |} in
    Ok (f_L f, iteration, InLoop f', h')
  else
    X ← dot (slice_cols data m c) (slice_rows pc m c);
    R ← add (h !!! f_L f) X;
    let '(r, h') := alloc h R in
    Ok (r, m, AtLastYield, h').

(** From the start of the body to the first test of the [while] loop. *)
Definition prologue (data principal_components : ndarray) (by_n : Z) (h : heap)
    : result (frame * heap) :=
  let '(n, c) := shape data in
  let '(C, N) := shape principal_components in
  M ← floordiv (Z.of_nat c) by_n;
  if negb (Nat.eqb C c) then Raise AssertionError else
  let '(L, h1) := alloc h (empty junk n N) in
  let m := 0 in
  Ok ({| f_data := data; f_principal_components := principal_components;
         f_by_n := by_n; f_c := c; f_L := L; f_m := m |}, h1).

(** Resuming a started call: the pair yielded or the exception raised, the
    generator afterwards and the store afterwards.  A generator whose body
    raised is finished. *)
Definition resume (f : frame) (h : heap)
    : result (loc * Z) * generator * heap :=
  match run_to_yield f h with
  | Ok (l, i, g', h') => (Ok (l, i), g', h')
  | Raise e => (Raise e, Finished, h)
  end.

(** [next(g)].  The body of a generator starts to run at the first
    [next]; after the last [yield] the body returns, which raises
    [StopIteration], as does every later [next]. *)
Definition next (g : generator) (h : heap)
    : result (loc * Z) * generator * heap :=
  match g with
  | Created data pc by_n =>
      match prologue data pc by_n h with
      | Ok (f, h1) => resume f h1
      | Raise e => (Raise e, Finished, h)
      end
  | InLoop f => resume f h
  | AtLastYield => (Raise StopIteration, Finished, h)
  | Finished => (Raise StopIteration, Finished, h)
  end.

(** What the consumer gets at one step: the array object, the integer, and
    the store at that moment. *)
Record event := mk_event {
  ev_ref : loc;
  ev_index : Z;
  ev_heap : heap
}.

(** The content of the yielded array when it is received. *)
Definition ev_seen (e : event) : ndarray := ev_heap e !!! ev_ref e.

Inductive ending :=
| Exhausted
| Failed (e : exn)
| StillRunning.

(** Ask for elements, at most [fuel] times, as a [for] loop over the
    generator does. *)
Fixpoint drain (fuel : nat) (g : generator) (h : heap) : list event * ending :=
  match fuel with
  | O => ([], StillRunning)
  | S fuel' =>
      match next g h with
      | (Ok (l, i), g', h') =>
          let '(evs, fin) := drain fuel' g' h' in
          ({| ev_ref := l; ev_index := i; ev_heap := h' |} :: evs, fin)
      | (Raise StopIteration, _, _) => ([], Exhausted)
      | (Raise e, _, _) => ([], Failed e)
      end
  end.

End Generator.


(** ** Notions used in the statements *)

Section Notions.
Import Np NpOps.

(** What the accumulator holds once [k] columns are folded in: the
    content of the [np.empty] block plus [data[:, :k] . pc[:k, :]]. *)
Definition acc (junk : nat -> nat -> Z) (data pc : ndarray) (k : nat)
    : ndarray :=
  tabulate (nrows data) (ncols pc)
           (fun i j => junk i j + dot_item data pc k i j).

(** [np.dot(data[:, :k], pc[:k, :])] *)
Definition prefix_product (data pc : ndarray) (k : nat) : result ndarray :=
  dot (slice_cols data 0 (Z.of_nat k)) (slice_rows pc 0 (Z.of_nat k)).

(** The accumulator after [t] turns of the loop, computed as the loop
    computes it: starting from the [np.empty] block, one [np.dot] of the
    next block of columns and rows and one [+=] per turn. *)
Fixpoint fold_blocks (junk : nat -> nat -> Z) (data pc : ndarray) (by_n : Z)
    (t : nat) : result ndarray :=
  match t with
  | O => Ok (empty junk (nrows data) (ncols pc))
  | Datatypes.S t' =>
      L ← fold_blocks junk data pc by_n t';
      let m := Z.of_nat t' * by_n in
      X ← dot (slice_cols data m (m + by_n)) (slice_rows pc m (m + by_n));
      add L X
  end.

(** [A[:, x]], [A[x, :]] and [np.outer(u, v)]. *)
Definition column (A : ndarray) (x : nat) : list Z :=
  map (fun i => item A i x) (seq 0 (nrows A)).

Definition row (A : ndarray) (x : nat) : list Z :=
  map (fun j => item A x j) (seq 0 (ncols A)).

Definition outer (u v : list Z) : ndarray :=
  tabulate (length u) (length v) (fun i j => nth i u 0 * nth j v 0).

(** The suspended call after [k] columns, for a block size [b] that is a
    natural number. *)
Definition frame_at (data pc : ndarray) (b c : nat) (L : loc) (k : nat)
    : frame :=
  {| f_data := data; f_principal_components := pc;
     f_by_n := Z.of_nat b; f_c := c; f_L := L; f_m := Z.of_nat k |}.

(** The elements of a whole run: [h0] is the store the first [next]
    finds, [L] the location the accumulator is given, [t] the turn of the
    loop, and [K1] the number of turns. *)
Definition loop_event (junk : nat -> nat -> Z) (data pc : ndarray) (b : nat)
    (h0 : heap) (L : loc) (t : nat) : event :=
  {| ev_ref := L;
     ev_index := Z.of_nat (t * b);
     ev_heap := <[L := acc junk data pc ((t + 1) * b)]> h0 |}.

Definition last_event (junk : nat -> nat -> Z) (data pc : ndarray) (b c : nat)
    (h0 : heap) (L : loc) (K1 : nat) : event :=
  let hK := <[L := acc junk data pc (K1 * b)]> h0 in
  {| ev_ref := fresh (dom hK);
     ev_index := Z.of_nat (K1 * b);
     ev_heap := <[fresh (dom hK) := acc junk data pc c]> hK |}.

(** An array at [L] of the shape of the reconstruction, and [data] and
    [pc] that fit each other: what every suspended call satisfies. *)
Definition frame_ok (f : frame) (h : heap) : Prop :=
  ncols (f_data f) = f_c f /\
  nrows (f_principal_components f) = f_c f /\
  nrows (h !!! f_L f) = nrows (f_data f) /\
  ncols (h !!! f_L f) = ncols (f_principal_components f).

Definition advance (f : frame) : frame :=
  {| f_data := f_data f;
     f_principal_components := f_principal_components f;
     f_by_n := f_by_n f; f_c := f_c f; f_L := f_L f;
     f_m := f_m f + f_by_n f |}.

(** [ceil(a / b)] for a positive [b]. *)
Definition ceil_div (a b : Z) : Z := - ((- a) / b).

(** How many times the test [m + by_n < c] succeeds. *)
Definition loop_turns (c b : nat) : nat := ((c - 1) / b)%nat.

End Notions.

(** The scenario of the notebook's description: a 2x3 [data] and a 3x2
    basis, and two contents of the block that [np.empty] hands out. *)
Module Scenario.

Definition data := Np.array [[1; 0; 2]; [0; 1; 1]].
Definition principal_components := Np.array [[1; 0]; [0; 1]; [1; 1]].
Definition four_rows := Np.array [[1; 0]; [0; 1]; [1; 1]; [2; 2]].
Definition four_columns := Np.array [[1; 2; 3; 4]].
Definition zeroed : nat -> nat -> Z := fun _ _ => 0.
Definition fives : nat -> nat -> Z := fun _ _ => 5.

(** What a consumer that looks at each element as it arrives sees. *)
Definition view (r : list event * ending) :=
  (map (fun e => (Np.rows (ev_seen e), ev_index e)) (fst r), snd r).

End Scenario.

(** ** The cells around the generator *)

(** Exceptions of the other cells: the two below, and the ones above. *)
Inductive py_exn :=
| TypeError
| IndexError
| Other (e : exn).

(** [for k in range(start, start + len): body].  The state is what the
    body has changed so far; it stays as it is when the body raises. *)
Fixpoint for_range {S E : Type} (body : nat -> S -> S * option E)
    (start len : nat) (s : S) : S * option E :=
  match len with
  | O => (s, None)
  | Datatypes.S len' =>
      match body start s with
      | (s', None) => for_range body (Datatypes.S start) len' s'
      | (s', Some e) => (s', Some e)
      end
  end.

(** Reading the image and label files. *)
Module Mnist.

(** A file opened with [open(name, 'rb')] and read from its start to its
    end: the bytes that are not read yet. *)
Definition file := list Byte.byte.

(** [f.read(k)]: at most [k] bytes, fewer at the end of the file. *)
Definition read (k : nat) (f : file) : list Byte.byte * file :=
  (take k f, drop k f).

Definition byte_value (b : Byte.byte) : Z := Z.of_N (Byte.to_N b).

(** [ord(bs)]: the value of the one byte of [bs]; [None] stands for the
    [TypeError] raised on any other length. *)
Definition ord (bs : list Byte.byte) : option Z :=
  match bs with
  | [b] => Some (byte_value b)
  | _ => None
  end.

(** A three-dimensional array, in row-major order. *)
Record array3 := mk_array3 {
  dim0 : nat;
  dim1 : nat;
  dim2 : nat;
  flat : list Z
}.

Definition zeros3 (a b c : nat) : array3 :=
  {| dim0 := a; dim1 := b; dim2 := c; flat := replicate (a * b * c) 0 |}.

Definition item3 (A : array3) (n j i : nat) : Z :=
  nth ((n * dim1 A + j) * dim2 A + i) (flat A) 0.

(** [A[n, j, i] = v]; [None] stands for the [IndexError] raised outside of
    the shape. *)
Definition setitem3 (A : array3) (n j i : nat) (v : Z) : option array3 :=
  if (n <? dim0 A)%nat && (j <? dim1 A)%nat && (i <? dim2 A)%nat
  then Some {| dim0 := dim0 A; dim1 := dim1 A; dim2 := dim2 A;
               flat := <[((n * dim1 A + j) * dim2 A + i)%nat := v]> (flat A) |}
  else None.

(** [Images[n,j,i]=ord(f.read(1))] *)
Definition store_pixel (n j i : nat) (s : file * array3)
    : (file * array3) * option py_exn :=
  let '(f, Images) := s in
  let '(bs, f') := read 1 f in
  match ord bs with
  | None => ((f', Images), Some TypeError)
  | Some v =>
      match setitem3 Images n j i v with
      | Some Images' => ((f', Images'), None)
      | None => ((f', Images), Some IndexError)
      end
  end.

(** The first half of the cell that reads the files, for [count] images of
    [rows] by [cols] pixels (10000, 28 and 28 in the notebook): the array
    [Images] as the cell leaves it, and the exception if one is raised. *)
Definition load_images (count rows cols : nat) (content : list Byte.byte)
    : array3 * option py_exn :=
  let Images := zeros3 count rows cols in
  let f : file := content in
  let '(_, f) := read 16 f in
  let '((_, Images), e) :=
    for_range (fun n =>
      for_range (fun j =>
        for_range (fun i => store_pixel n j i) 0 cols) 0 rows) 0 count
      (f, Images) in
  (Images, e).

(** [Labels[n]=ord(l.read(1))] on the one-dimensional [Labels]. *)
Definition store_label (n : nat) (s : file * list Z)
    : (file * list Z) * option py_exn :=
  let '(l, Labels) := s in
  let '(bs, l') := read 1 l in
  match ord bs with
  | None => ((l', Labels), Some TypeError)
  | Some v =>
      if (n <? length Labels)%nat
      then ((l', <[n := v]> Labels), None)
      else ((l', Labels), Some IndexError)
  end.

(** The second half of that cell (10000 labels in the notebook). *)
Definition load_labels (count : nat) (content : list Byte.byte)
    : list Z * option py_exn :=
  let Labels := replicate count 0 in
  let l : file := content in
  let '(_, l) := read 8 l in
  let '((_, Labels), e) := for_range store_label 0 count (l, Labels) in
  (Labels, e).

(** [A.reshape((r, -1))]: the second dimension is inferred, which fails
    when [r] is 0 or does not divide the size. *)
Definition reshape_rows (A : array3) (r : nat) : result Np.ndarray :=
  let size := (dim0 A * dim1 A * dim2 A)%nat in
  if (r =? 0)%nat || negb (size mod r =? 0)%nat then Raise ValueError
  else Ok (Np.tabulate r (size / r)
             (fun a b => nth (a * (size / r) + b) (flat A) 0)).

(** A small file: 16 bytes of header and 6 bytes of data. *)
Definition tiny_image_file : list Byte.byte :=
  replicate 16 Byte.x00
  ++ [Byte.x0a; Byte.x14; Byte.x1e; Byte.x28; Byte.x32; Byte.x3c].

(** A small label file: 8 bytes of header and 3 labels. *)
Definition tiny_label_file : list Byte.byte :=
  replicate 8 Byte.x00 ++ [Byte.x03; Byte.x07; Byte.x01].

End Mnist.

(** The cell that draws the grid of reconstructions. *)
Module Figure.

(** One call of [imshow] and [set_title]: the place in the grid, the image
    as it is when it is handed over, and the number put in the title. *)
Record panel := mk_panel {
  p_row : nat;
  p_col : nat;
  p_image : Np.ndarray;
  p_layers : Z
}.

(** Entry [k] of an array read in row-major order. *)
Definition flat_item (A : Np.ndarray) (k : nat) : Z :=
  Np.item A (k / Np.ncols A) (k mod Np.ncols A).

(** [A.reshape((S, a, b))[s, :, :]]: [ValueError] when the sizes differ,
    [IndexError] when [s] is not below [S]. *)
Definition reshape_pick (A : Np.ndarray) (S a b s : nat)
    : Np.ndarray + py_exn :=
  if negb (Np.nrows A * Np.ncols A =? S * a * b)%nat
  then inr (Other ValueError)
  else if negb (s <? S)%nat then inr IndexError
  else inl (Np.tabulate a b (fun y x => flat_item A ((s * a + y) * b + x))).

(** What [plt.subplots(R, C)] hands back as [axarr], with its default
    [squeeze=True]: one [Axes] for a grid of one panel, a one-dimensional
    array for one row or one column, a two-dimensional array otherwise. *)
Inductive axes_array :=
| SingleAxes
| AxesRow (len : nat)
| AxesGrid (rows cols : nat).

(** [plt.subplots(R, C)]; [None] stands for the [ValueError] raised when
    a number of rows or columns is not positive. *)
Definition subplots (R C : nat) : option axes_array :=
  if (R =? 0)%nat || (C =? 0)%nat then None
  else if (R =? 1)%nat && (C =? 1)%nat then Some SingleAxes
  else if (R =? 1)%nat then Some (AxesRow C)
  else if (C =? 1)%nat then Some (AxesRow R)
  else Some (AxesGrid R C).

(** [axarr[N, i]]: the exception it raises, if any.  Two indices are too
    many for a one-dimensional array, and an [Axes] has no indexing. *)
Definition axes_lookup (axarr : axes_array) (N i : nat) : option py_exn :=
  match axarr with
  | AxesGrid rows cols =>
      if (N <? rows)%nat && (i <? cols)%nat then None else Some IndexError
  | AxesRow _ => Some IndexError
  | SingleAxes => Some TypeError
  end.

(** The body of the two loops: ask for an element, look the panel up,
    take the image out of the element and draw it. *)
Definition draw_panel (junk : nat -> nat -> Z) (axarr : axes_array)
    (S a b s : nat) (N i : nat) (st : generator * heap * list panel)
    : (generator * heap * list panel) * option py_exn :=
  let '(g, h, drawn) := st in
  match next junk g h with
  | (Raise e, g', h') => ((g', h', drawn), Some (Other e))
  | (Ok (image_array, num_layers), g', h') =>
      match axes_lookup axarr N i with
      | Some e => ((g', h', drawn), Some e)
      | None =>
          match reshape_pick (h' !!! image_array) S a b s with
          | inr e => ((g', h', drawn), Some e)
          | inl img =>
              ((g', h',
                drawn ++ [{| p_row := N; p_col := i; p_image := img;
                             p_layers := num_layers |}]), None)
          end
      end
  end.

(** The cell, for a grid of [R] by [C] panels showing sample [s] of [S]
    images of [a] by [b] pixels (27, 25, 4, 4000, 28 and 28 in the
    notebook); the block size is 1. *)
Definition reconstruction_grid (junk : nat -> nat -> Z) (R C S a b s : nat)
    (X_compressed cpts : Np.ndarray) (h : heap)
    : (generator * heap * list panel) * option py_exn :=
  let X_compression_layers_generator :=
    data_reconstruction X_compressed cpts 1 in
  match subplots R C with
  | None => ((X_compression_layers_generator, h, []), Some (Other ValueError))
  | Some axarr =>
      for_range (fun N =>
        for_range (fun i => draw_panel junk axarr S a b s N i) 0 C) 0 R
        (X_compression_layers_generator, h, [])
  end.

End Figure.

(** ** Facts about arrays *)

Module NpFacts.
Import Np NpOps.

Lemma item_tabulate n N f i j :
  (i < n)%nat -> (j < N)%nat -> item (tabulate n N f) i j = f i j.
Proof.
  intros Hi Hj. unfold item, tabulate. simpl.
  rewrite (nth_indep _ [] (map (fun j => f 0%nat j) (seq 0 N)))
    by (rewrite length_map, length_seq; exact Hi).
  rewrite (map_nth (fun i => map (fun j => f i j) (seq 0 N)) (seq 0 n) 0%nat i).
  rewrite seq_nth by exact Hi. simpl.
  rewrite (nth_indep _ 0 (f i 0%nat))
    by (rewrite length_map, length_seq; exact Hj).
  rewrite (map_nth (fun j => f i j) (seq 0 N) 0%nat j).
  rewrite seq_nth by exact Hj. reflexivity.
Qed.

Lemma tabulate_ext n N f g :
  (forall i j, (i < n)%nat -> (j < N)%nat -> f i j = g i j) ->
  tabulate n N f = tabulate n N g.
Proof.
  intros H. unfold tabulate. f_equal.
  apply map_ext_in. intros i Hi. apply in_seq in Hi.
  apply map_ext_in. intros j Hj. apply in_seq in Hj.
  apply H; lia.
Qed.

Lemma sumZ_app l1 l2 : sumZ (l1 ++ l2) = sumZ l1 + sumZ l2.
Proof.
  induction l1 as [|x l1 IH]; simpl; [reflexivity|].
  rewrite IH. lia.
Qed.

Lemma map_seq_shift {A} (f : nat -> A) s k :
  map f (seq s k) = map (fun x => f (s + x)%nat) (seq 0 k).
Proof.
  rewrite <- (map_map (fun x => (s + x)%nat) f). f_equal.
  revert s. induction k as [|k IH]; intros s; simpl; [reflexivity|].
  f_equal; [lia|].
  rewrite (IH (S s)), (IH 1%nat), map_map.
  apply map_ext. intros x. lia.
Qed.

(** A product over the first [a + b] columns is the product over the first
    [a] plus the product over the next [b]. *)
Lemma dot_item_split A B a b i j :
  dot_item A B (a + b) i j =
  dot_item A B a i j
  + sumZ (map (fun x => item A i (a + x) * item B (a + x) j) (seq 0 b)).
Proof.
  unfold dot_item.
  rewrite seq_app, map_app, sumZ_app. simpl.
  rewrite (map_seq_shift (fun x => item A i x * item B x j) a b). reflexivity.
Qed.

End NpFacts.

Module NpOpsFacts.
Import Np NpOps NpFacts.

Lemma slice_bound_nat len k :
  (k <= len)%nat -> slice_bound len (Z.of_nat k) = k.
Proof.
  intros Hk. unfold slice_bound.
  destruct (Z.ltb_spec (Z.of_nat k) 0); [lia|].
  destruct (Z.ltb_spec 0 0); [lia|].
  destruct (Z.ltb_spec (Z.of_nat k) 0); [lia|].
  destruct (Z.ltb_spec (Z.of_nat len) (Z.of_nat k)); [lia|].
  apply Nat2Z.id.
Qed.

(** The same slice taken on the columns of [data] and on the rows of [pc]
    always gives two arrays that [np.dot] accepts, whatever the bounds. *)
Lemma dot_slices data pc a b :
  ncols data = nrows pc ->
  dot (slice_cols data a b) (slice_rows pc a b) =
  Ok (tabulate (nrows data) (ncols pc) (fun i j =>
        sumZ (map (fun x => item data i (slice_bound (ncols data) a + x)
                            * item pc (slice_bound (ncols data) a + x) j)
                  (seq 0 (slice_bound (ncols data) b
                          - slice_bound (ncols data) a))))).
Proof.
  intros Hc. unfold dot, slice_cols, slice_rows. simpl.
  rewrite <- Hc, Nat.eqb_refl. f_equal.
  apply tabulate_ext. intros i j Hi Hj. unfold dot_item. f_equal.
  apply map_ext_in. intros x Hx. apply in_seq in Hx.
  rewrite !item_tabulate by lia. reflexivity.
Qed.

Lemma add_tabulate n N f g :
  add (tabulate n N f) (tabulate n N g) =
  Ok (tabulate n N (fun i j => f i j + g i j)).
Proof.
  unfold add. simpl. rewrite !Nat.eqb_refl. simpl. f_equal.
  apply tabulate_ext. intros i j Hi Hj.
  rewrite !item_tabulate by assumption. reflexivity.
Qed.

End NpOpsFacts.

(** ** Facts about the generator *)

Lemma drain_yield junk fuel g h l i g' h' :
  next junk g h = (Ok (l, i), g', h') ->
  drain junk (S fuel) g h =
  ({| ev_ref := l; ev_index := i; ev_heap := h' |}
     :: fst (drain junk fuel g' h'),
   snd (drain junk fuel g' h')).
Proof.
  intros H. simpl. rewrite H. destruct (drain junk fuel g' h'). reflexivity.
Qed.

Lemma drain_created junk fuel data pc by_n h f h1 :
  prologue junk data pc by_n h = Ok (f, h1) ->
  drain junk fuel (Created data pc by_n) h = drain junk fuel (InLoop f) h1.
Proof.
  intros H. destruct fuel as [|fuel]; simpl; [reflexivity|].
  rewrite H. reflexivity.
Qed.

Section Positive.
Import Np NpOps NpFacts NpOpsFacts.

Variable junk : nat -> nat -> Z.
Variables data pc : ndarray.
Variables b c : nat.
Hypothesis Hdata : ncols data = c.
Hypothesis Hpc : nrows pc = c.

Local Abbreviation accu := (acc junk data pc).
Local Abbreviation frame_k := (frame_at data pc b c).
Local Abbreviation loop_ev := (loop_event junk data pc b).
Local Abbreviation last_ev := (last_event junk data pc b c).

Lemma acc_0 : accu 0 = empty junk (nrows data) (ncols pc).
Proof.
  unfold acc, empty. apply tabulate_ext. intros i j _ _.
  unfold dot_item. simpl. lia.
Qed.

Lemma step_loop L k (h : heap) :
  (k + b < c)%nat ->
  h !!! L = accu k ->
  run_to_yield (frame_k L k) h =
  Ok (L, Z.of_nat k, InLoop (frame_k L (k + b)), <[L := accu (k + b)]> h).
Proof.
  intros Hlt HL. unfold run_to_yield, frame_at. simpl.
  destruct (Z.ltb_spec (Z.of_nat k + Z.of_nat b) (Z.of_nat c)); [|lia].
  rewrite dot_slices by congruence. simpl.
  rewrite HL. unfold acc at 1. rewrite add_tabulate. simpl.
  rewrite <- Nat2Z.inj_add. rewrite Hdata.
  rewrite !slice_bound_nat by lia.
  replace (k + b - k)%nat with b by lia.
  do 4 f_equal. unfold acc. apply tabulate_ext. intros i j _ _.
  rewrite dot_item_split. lia.
Qed.

Lemma step_last L k (h : heap) :
  (k <= c)%nat -> (c <= k + b)%nat ->
  h !!! L = accu k ->
  run_to_yield (frame_k L k) h =
  Ok (fresh (dom h), Z.of_nat k, AtLastYield, <[fresh (dom h) := accu c]> h).
Proof.
  intros Hle Hge HL. unfold run_to_yield, frame_at. simpl.
  destruct (Z.ltb_spec (Z.of_nat k + Z.of_nat b) (Z.of_nat c)); [lia|].
  rewrite dot_slices by congruence. simpl.
  rewrite HL. unfold acc at 1. rewrite add_tabulate. simpl.
  rewrite Hdata. rewrite !slice_bound_nat by lia.
  do 3 f_equal. unfold acc. apply tabulate_ext. intros i j _ _.
  replace (dot_item data pc c i j)
    with (dot_item data pc (k + (c - k)) i j) by (f_equal; lia).
  rewrite dot_item_split. lia.
Qed.

Variable K1 : nat.
Hypothesis HK1_lo : (K1 * b < c)%nat.
Hypothesis HK1_hi : (c <= (K1 + 1) * b)%nat.

Lemma drain_loop (h0 : heap) (L : loc) s : forall t fuel,
  (t + s = K1)%nat -> (s + 1 < fuel)%nat ->
  drain junk fuel (InLoop (frame_k L (t * b))) (<[L := accu (t * b)]> h0) =
  (map (loop_ev h0 L) (seq t s) ++ [last_ev h0 L K1], Exhausted).
Proof.
  induction s as [|s IH]; intros t fuel Ht Hfuel.
  - assert (t = K1) by lia. subst t.
    destruct fuel as [|[|fuel]]; [lia|lia|].
    erewrite drain_yield; cycle 1.
    { simpl. unfold resume. rewrite step_last.
      - reflexivity.
      - lia.
      - lia.
      - apply lookup_total_insert_eq. }
    reflexivity.
  - destruct fuel as [|fuel]; [lia|].
    assert (Hb : (t * b + b <= K1 * b)%nat) by nia.
    erewrite drain_yield; cycle 1.
    { simpl. unfold resume. rewrite step_loop.
      - reflexivity.
      - lia.
      - apply lookup_total_insert_eq. }
    rewrite insert_insert_eq.
    replace (t * b + b)%nat with (S t * b)%nat by lia.
    rewrite (IH (S t) fuel) by lia.
    simpl. unfold loop_event at 2.
    replace ((t + 1) * b)%nat with (b + t * b)%nat by lia.
    reflexivity.
Qed.

Hypothesis Hb : (1 <= b)%nat.

Lemma prologue_ok (h : heap) :
  prologue junk data pc (Z.of_nat b) h =
  Ok (frame_k (fresh (dom h)) 0, <[fresh (dom h) := accu 0]> h).
Proof.
  unfold prologue, shape, floordiv. simpl.
  destruct (Z.eqb_spec (Z.of_nat b) 0); [lia|]. simpl.
  rewrite Hpc, Hdata, Nat.eqb_refl. simpl.
  rewrite acc_0. reflexivity.
Qed.

(** A run on valid arguments, as a whole. *)
Lemma drain_valid (h : heap) fuel :
  (K1 + 1 < fuel)%nat ->
  drain junk fuel (data_reconstruction data pc (Z.of_nat b)) h =
  (map (loop_ev h (fresh (dom h))) (seq 0 K1)
     ++ [last_ev h (fresh (dom h)) K1], Exhausted).
Proof.
  intros Hfuel. unfold data_reconstruction.
  rewrite (drain_created _ _ _ _ _ _ _ _ (prologue_ok h)).
  apply (drain_loop h (fresh (dom h)) K1 0%nat fuel); lia.
Qed.

End Positive.

(** ** Steps that hold for every block size *)

Section AnyBlockSize.
Import Np NpOps NpFacts NpOpsFacts.

Lemma add_same_shape A n N g :
  nrows A = n -> ncols A = N ->
  add A (tabulate n N g) =
  Ok (tabulate n N (fun i j => item A i j + g i j)).
Proof.
  intros Hn HN. unfold add. simpl.
  rewrite Hn, HN, !Nat.eqb_refl. simpl. f_equal.
  apply tabulate_ext. intros i j Hi Hj.
  rewrite item_tabulate by assumption. reflexivity.
Qed.

Lemma step_turn f (h : heap) :
  frame_ok f h ->
  f_m f + f_by_n f < Z.of_nat (f_c f) ->
  exists A,
    run_to_yield f h = Ok (f_L f, f_m f, InLoop (advance f), <[f_L f := A]> h)
    /\ frame_ok (advance f) (<[f_L f := A]> h).
Proof.
  intros (Hd & Hp & Hn & HN) Hlt. unfold run_to_yield.
  destruct (Z.ltb_spec (f_m f + f_by_n f) (Z.of_nat (f_c f))); [|lia].
  rewrite dot_slices by congruence. simpl.
  rewrite (add_same_shape _ _ _ _ Hn HN). simpl.
  eexists. split; [reflexivity|].
  unfold frame_ok, advance. simpl.
  rewrite lookup_total_insert_eq. simpl. auto.
Qed.

Lemma step_exit f (h : heap) :
  frame_ok f h ->
  ~ f_m f + f_by_n f < Z.of_nat (f_c f) ->
  exists A,
    run_to_yield f h =
    Ok (fresh (dom h), f_m f, AtLastYield, <[fresh (dom h) := A]> h).
Proof.
  intros (Hd & Hp & Hn & HN) Hge. unfold run_to_yield.
  destruct (Z.ltb_spec (f_m f + f_by_n f) (Z.of_nat (f_c f))); [lia|].
  rewrite dot_slices by congruence. simpl.
  rewrite (add_same_shape _ _ _ _ Hn HN). simpl.
  eexists. reflexivity.
Qed.

Lemma prologue_any junk data pc by_n (h : heap) :
  by_n <> 0 -> nrows pc = ncols data ->
  exists f h1,
    prologue junk data pc by_n h = Ok (f, h1)
    /\ frame_ok f h1
    /\ f_by_n f = by_n /\ f_m f = 0 /\ f_c f = ncols data.
Proof.
  intros Hb HC. unfold prologue, shape, floordiv.
  destruct (Z.eqb_spec by_n 0); [contradiction|]. simpl.
  rewrite HC, Nat.eqb_refl. simpl.
  eexists _, _. split; [reflexivity|].
  unfold frame_ok. simpl. rewrite lookup_total_insert_eq. simpl. auto.
Qed.

(** With a negative block size the offset only goes down, so the test of
    the loop never fails. *)
Lemma drain_negative junk fuel : forall f (h : heap),
  frame_ok f h -> f_by_n f <= -1 -> f_m f <= 0 ->
  exists evs,
    drain junk fuel (InLoop f) h = (evs, StillRunning)
    /\ map ev_index evs =
       map (fun t => f_m f + Z.of_nat t * f_by_n f) (seq 0 fuel).
Proof.
  induction fuel as [|fuel IH]; intros f h Hok Hb Hm.
  - exists []. split; reflexivity.
  - destruct (step_turn f h Hok) as (A & Hrun & Hok'); [lia|].
    destruct (IH (advance f) _ Hok') as (evs & Hevs & Hidx);
      [exact Hb | simpl; lia |].
    eexists. split.
    + erewrite drain_yield by (simpl; unfold resume; rewrite Hrun; reflexivity).
      rewrite Hevs. reflexivity.
    + simpl. f_equal; [lia|].
      rewrite Hidx. simpl f_m. simpl f_by_n.
      rewrite (map_seq_shift _ 1%nat fuel).
      apply map_ext. intros t. lia.
Qed.

End AnyBlockSize.

(** ** Counting the turns of the loop *)

Lemma loop_turns_bounds c b :
  (1 <= b)%nat -> (1 <= c)%nat ->
  (loop_turns c b * b < c)%nat /\ (c <= (loop_turns c b + 1) * b)%nat.
Proof.
  intros Hb Hc. unfold loop_turns.
  pose proof (Nat.div_mod_eq (c - 1) b) as Hdm.
  pose proof (Nat.mod_upper_bound (c - 1) b) as Hlt.
  split; nia.
Qed.

Lemma ceil_div_loop_turns c b :
  (1 <= b)%nat -> (1 <= c)%nat ->
  ceil_div (Z.of_nat c) (Z.of_nat b) = Z.of_nat (loop_turns c b + 1).
Proof.
  intros Hb Hc. destruct (loop_turns_bounds c b Hb Hc) as [Hlo Hhi].
  unfold ceil_div.
  rewrite <- (Z.div_unique (- Z.of_nat c) (Z.of_nat b)
                (- Z.of_nat (loop_turns c b + 1))
                (Z.of_nat ((loop_turns c b + 1) * b - c))); [lia| |].
  - left. lia.
  - rewrite Nat2Z.inj_sub by lia. rewrite Nat2Z.inj_mul. lia.
Qed.

(** ** The run on valid arguments *)

Lemma lookup_map_seq {A} (f : nat -> A) (k i : nat) (x : A) :
  map f (seq 0 k) !! i = Some x -> (i < k)%nat /\ x = f i.
Proof.
  change (map f (seq 0 k)) with (f <$> seq 0 k).
  rewrite list_lookup_fmap. intros H.
  destruct (seq 0 k !! i) as [y|] eqn:Hy; [|discriminate].
  apply lookup_seq in Hy. destruct Hy as [-> Hlt].
  simpl in H. split; [exact Hlt | congruence].
Qed.

Section ValidRun.
Import Np NpOps NpFacts NpOpsFacts.

Variable junk : nat -> nat -> Z.
Variables data pc : ndarray.
Variable by_n : Z.
Variable h : heap.
Hypothesis Hc : (1 <= ncols data)%nat.
Hypothesis HC : nrows pc = ncols data.
Hypothesis Hby : 1 <= by_n.

Let b := Z.to_nat by_n.
Let c := ncols data.
Let K1 := loop_turns c b.
Let L := fresh (dom h).

Lemma run_valid fuel :
  ceil_div (Z.of_nat c) by_n < Z.of_nat fuel ->
  drain junk fuel (data_reconstruction data pc by_n) h =
  (map (loop_event junk data pc b h L) (seq 0 K1)
     ++ [last_event junk data pc b c h L K1], Exhausted).
Proof.
  intros Hfuel.
  assert (Hb : (1 <= b)%nat) by (subst b; lia).
  assert (Hbz : by_n = Z.of_nat b) by (subst b; lia).
  destruct (loop_turns_bounds c b Hb Hc) as [Hlo Hhi].
  rewrite Hbz, (ceil_div_loop_turns c b Hb Hc) in Hfuel.
  rewrite Hbz.
  apply (drain_valid junk data pc b c eq_refl HC K1 Hlo Hhi Hb h fuel).
  fold K1 in Hfuel. lia.
Qed.

Lemma turns_count : ceil_div (Z.of_nat c) by_n = Z.of_nat (K1 + 1).
Proof.
  assert (Hb : (1 <= b)%nat) by (subst b; lia).
  replace by_n with (Z.of_nat b) by (subst b; lia).
  apply ceil_div_loop_turns; assumption.
Qed.

Lemma turns_bounds :
  Z.of_nat K1 * by_n < Z.of_nat c /\ Z.of_nat c <= (Z.of_nat K1 + 1) * by_n.
Proof.
  assert (Hb : (1 <= b)%nat) by (subst b; lia).
  destruct (loop_turns_bounds c b Hb Hc) as [Hlo Hhi].
  replace by_n with (Z.of_nat b) by (subst b; lia).
  fold K1 in Hlo, Hhi. split; nia.
Qed.

Lemma loop_event_index t :
  ev_index (loop_event junk data pc b h L t) = Z.of_nat t * by_n.
Proof. simpl. subst b. nia. Qed.

Lemma last_event_index :
  ev_index (last_event junk data pc b c h L K1) = Z.of_nat K1 * by_n.
Proof. simpl. subst b. nia. Qed.

Lemma loop_event_seen t :
  ev_seen (loop_event junk data pc b h L t) = acc junk data pc ((t + 1) * b).
Proof. unfold ev_seen. simpl. apply lookup_total_insert_eq. Qed.

Lemma last_event_seen :
  ev_seen (last_event junk data pc b c h L K1) = acc junk data pc c.
Proof. unfold ev_seen. simpl. apply lookup_total_insert_eq. Qed.

Lemma last_event_fresh :
  ev_ref (last_event junk data pc b c h L K1) <> L.
Proof.
  simpl. intros Heq.
  apply (is_fresh (dom (<[L := acc junk data pc (K1 * b)]> h))).
  rewrite Heq at 1. rewrite dom_insert_L. set_solver.
Qed.

End ValidRun.

(** ** What a consumer of a valid run sees *)

Lemma lookup_snoc {A} (l : list A) (x : A) i y :
  (l ++ [x]) !! i = Some y ->
  l !! i = Some y \/ (i = length l /\ y = x).
Proof.
  rewrite lookup_app_Some. intros [H | [Hle H]]; [left; exact H|].
  apply list_lookup_singleton_Some in H. destruct H as [H0 ->].
  right. split; [lia | reflexivity].
Qed.

Section ValidRunSummary.
Import Np NpOps NpFacts NpOpsFacts.

Variable junk : nat -> nat -> Z.
Variables data pc : ndarray.
Variable by_n : Z.
Variable h : heap.
Hypothesis Hc : (1 <= ncols data)%nat.
Hypothesis HC : nrows pc = ncols data.
Hypothesis Hby : 1 <= by_n.

(** The elements before the last are the accumulator itself, at the
    location [fresh (dom h)] it was given; the last is a new array. *)
Lemma valid_run fuel :
  ceil_div (Z.of_nat (ncols data)) by_n < Z.of_nat fuel ->
  exists evs last,
    drain junk fuel (data_reconstruction data pc by_n) h
      = (evs ++ [last], Exhausted)
    /\ Z.of_nat (length evs) + 1 = ceil_div (Z.of_nat (ncols data)) by_n
    /\ (forall i e, evs !! i = Some e ->
          ev_ref e = fresh (dom h)
          /\ ev_index e = Z.of_nat i * by_n
          /\ (Z.of_nat i + 1) * by_n < Z.of_nat (ncols data)
          /\ ev_seen e = acc junk data pc ((i + 1) * Z.to_nat by_n))
    /\ ev_ref last <> fresh (dom h)
    /\ ev_index last = Z.of_nat (length evs) * by_n
    /\ Z.of_nat (length evs) * by_n < Z.of_nat (ncols data)
    /\ Z.of_nat (ncols data) <= (Z.of_nat (length evs) + 1) * by_n
    /\ ev_seen last = acc junk data pc (ncols data).
Proof.
  intros Hfuel.
  pose proof (run_valid junk data pc by_n h Hc HC Hby fuel Hfuel) as Hrun.
  pose proof (turns_count data pc by_n h Hc HC Hby) as Hcount.
  pose proof (turns_bounds data pc by_n h Hc HC Hby) as [Hlo Hhi].
  set (K1 := loop_turns (ncols data) (Z.to_nat by_n)) in *.
  set (L := fresh (dom h)) in *.
  eexists _, _. split; [exact Hrun|].
  rewrite length_map, length_seq.
  split; [lia|]. split.
  - intros i e He. apply lookup_map_seq in He. destruct He as [Hi ->].
    split; [reflexivity|]. split; [apply loop_event_index; assumption|].
    split; [nia|]. apply loop_event_seen.
  - split; [apply last_event_fresh; assumption|].
    split; [apply last_event_index; assumption|].
    split; [exact Hlo|]. split; [exact Hhi|].
    apply last_event_seen.
Qed.

End ValidRunSummary.

(** The accumulator after [k] columns is the [np.empty] block plus the
    product of the first [k] columns of [data] and rows of [pc]. *)
Lemma prefix_product_ok data pc k :
  Np.nrows pc = Np.ncols data -> (k <= Np.ncols data)%nat ->
  prefix_product data pc k =
  Ok (Np.tabulate (Np.nrows data) (Np.ncols pc) (Np.dot_item data pc k)).
Proof.
  intros HC Hk. unfold prefix_product.
  rewrite NpOpsFacts.dot_slices by congruence. f_equal.
  change 0 with (Z.of_nat 0).
  rewrite !NpOpsFacts.slice_bound_nat by lia.
  apply NpFacts.tabulate_ext. intros i j _ _.
  unfold Np.dot_item. rewrite Nat.sub_0_r. reflexivity.
Qed.

Lemma acc_prefix_product junk data pc k P :
  prefix_product data pc k = Ok P ->
  Np.nrows pc = Np.ncols data -> (k <= Np.ncols data)%nat ->
  NpOps.add (Np.empty junk (Np.nrows data) (Np.ncols pc)) P =
  Ok (acc junk data pc k).
Proof.
  intros HP HC Hk. rewrite prefix_product_ok in HP by assumption.
  injection HP as <-. unfold Np.empty. rewrite NpOpsFacts.add_tabulate.
  reflexivity.
Qed.

(** The whole product, taken in one step. *)
Lemma dot_whole data pc :
  Np.nrows pc = Np.ncols data ->
  NpOps.dot data pc =
  Ok (Np.tabulate (Np.nrows data) (Np.ncols pc)
        (Np.dot_item data pc (Np.ncols data))).
Proof.
  intros HC. unfold NpOps.dot. rewrite HC, Nat.eqb_refl. reflexivity.
Qed.

(** Folding in one more column is a rank-1 update. *)
Lemma acc_rank1 junk data pc k :
  NpOps.add (acc junk data pc k) (outer (column data k) (row pc k)) =
  Ok (acc junk data pc (k + 1)).
Proof.
  unfold acc, outer, column, row.
  rewrite !length_map, !length_seq.
  rewrite NpOpsFacts.add_tabulate. f_equal.
  apply NpFacts.tabulate_ext. intros i j Hi Hj.
  rewrite NpFacts.dot_item_split. simpl.
  rewrite (nth_indep _ 0 (Np.item data 0 k))
    by (rewrite length_map, length_seq; exact Hi).
  rewrite (map_nth (fun i => Np.item data i k) (seq 0 (Np.nrows data)) 0%nat i).
  rewrite (nth_indep _ 0 (Np.item pc k 0))
    by (rewrite length_map, length_seq; exact Hj).
  rewrite (map_nth (fun j => Np.item pc k j) (seq 0 (Np.ncols pc)) 0%nat j).
  rewrite !seq_nth by assumption. simpl.
  rewrite Nat.add_0_r. lia.
Qed.

Lemma acc_zeroed junk data pc k :
  (forall i j, junk i j = 0) ->
  acc junk data pc k =
  Np.tabulate (Np.nrows data) (Np.ncols pc) (Np.dot_item data pc k).
Proof.
  intros Hz. unfold acc. apply NpFacts.tabulate_ext. intros i j _ _.
  rewrite Hz. lia.
Qed.

(** What the elements hold on valid arguments, in exact arithmetic: the [i]-th of them (from 0)
    is the [np.empty] block plus the product over the columns folded in so
    far, and the last is that block plus the whole product. *)
Lemma snapshots_are_block_plus_prefix junk data pc by_n (h : heap) fuel :
  (1 <= Np.ncols data)%nat ->
  Np.nrows pc = Np.ncols data ->
  1 <= by_n ->
  ceil_div (Z.of_nat (Np.ncols data)) by_n < Z.of_nat fuel ->
  exists evs last,
    drain junk fuel (data_reconstruction data pc by_n) h
      = (evs ++ [last], Exhausted)
    /\ (forall i e, evs !! i = Some e ->
          exists P,
            prefix_product data pc ((i + 1) * Z.to_nat by_n) = Ok P
            /\ NpOps.add (Np.empty junk (Np.nrows data) (Np.ncols pc)) P
               = Ok (ev_seen e))
    /\ (exists P,
          NpOps.dot data pc = Ok P
          /\ NpOps.add (Np.empty junk (Np.nrows data) (Np.ncols pc)) P
             = Ok (ev_seen last)).
Proof.
  intros Hc HC Hby Hfuel.
  destruct (valid_run junk data pc by_n h Hc HC Hby fuel Hfuel)
    as (evs & last & Hrun & _ & Hloop & _ & _ & _ & _ & Hlast).
  exists evs, last. split; [exact Hrun|]. split.
  - intros i e He. destruct (Hloop i e He) as (_ & _ & Hlt & Hseen).
    assert (Hk : ((i + 1) * Z.to_nat by_n <= Np.ncols data)%nat) by nia.
    eexists. split; [apply prefix_product_ok; assumption|].
    rewrite Hseen. unfold Np.empty, acc.
    rewrite NpOpsFacts.add_tabulate. reflexivity.
  - eexists. split; [apply dot_whole; assumption|].
    rewrite Hlast. unfold Np.empty, acc.
    rewrite NpOpsFacts.add_tabulate. reflexivity.
Qed.

(** Had the block been zeroed, the last element would be the whole
    product, in exact arithmetic. *)
Lemma last_snapshot_on_zeroed_block junk data pc by_n (h : heap) fuel :
  (forall i j, junk i j = 0) ->
  (1 <= Np.ncols data)%nat ->
  Np.nrows pc = Np.ncols data ->
  1 <= by_n ->
  ceil_div (Z.of_nat (Np.ncols data)) by_n < Z.of_nat fuel ->
  exists evs last,
    drain junk fuel (data_reconstruction data pc by_n) h
      = (evs ++ [last], Exhausted)
    /\ NpOps.dot data pc = Ok (ev_seen last).
Proof.
  intros Hz Hc HC Hby Hfuel.
  destruct (valid_run junk data pc by_n h Hc HC Hby fuel Hfuel)
    as (evs & last & Hrun & _ & _ & _ & _ & _ & _ & Hlast).
  exists evs, last. split; [exact Hrun|].
  rewrite Hlast, acc_zeroed by exact Hz. apply dot_whole. exact HC.
Qed.

(** A call that is suspended in the loop always reaches its next
    [yield]. *)
Lemma resume_yields f (h : heap) :
  frame_ok f h ->
  exists l i g' h', resume f h = (Ok (l, i), g', h').
Proof.
  intros Hok. unfold resume.
  destruct (Z.lt_ge_cases (f_m f + f_by_n f) (Z.of_nat (f_c f))) as [Hlt|Hge].
  - destruct (step_turn f h Hok Hlt) as (A & -> & _). eauto.
  - destruct (step_exit f h Hok) as (A & ->); [lia|]. eauto.
Qed.

(** * The claims *)

(** C1.  The accumulator is not zero-initialised: it is the block that
    [np.empty] hands out, and what that block held stays in every element.
    On the 1x1 arguments [data = [[1]]], [principal_components = [[1]]]
    with block size 1, and a block holding 7, the only element yielded is
    [[8]], whereas the product of [data] and [principal_components] is
    [[1]]. *)
Theorem C1_accumulator_keeps_the_empty_block :
  exists e,
    drain (fun _ _ => 7) 2
          (data_reconstruction (Np.array [[1]]) (Np.array [[1]]) 1) ∅
      = ([e], Exhausted)
    /\ ev_seen e = Np.array [[8]]
    /\ NpOps.dot (Np.array [[1]]) (Np.array [[1]]) = Ok (Np.array [[1]])
    /\ Np.empty (fun _ _ => 7) 1 1 <> Np.zeros 1 1.
Proof.
  eexists. split; [vm_compute; reflexivity|].
  split; [vm_compute; reflexivity|].
  split; [vm_compute; reflexivity|].
  vm_compute. discriminate.
Qed.

(** C2.  On valid arguments the run ends, after exactly
    [ceil(c / by_n)] elements: every element but the last folds in a whole
    block that ends before column [c], and the last one folds in the
    columns from its offset to [c], which are [c mod by_n] columns, or
    [by_n] when [by_n] divides [c]. *)
Theorem C2_number_of_yielded_elements junk data pc by_n (h : heap) fuel :
  (1 <= Np.ncols data)%nat ->
  Np.nrows pc = Np.ncols data ->
  1 <= by_n ->
  ceil_div (Z.of_nat (Np.ncols data)) by_n < Z.of_nat fuel ->
  exists evs last,
    drain junk fuel (data_reconstruction data pc by_n) h
      = (evs ++ [last], Exhausted)
    /\ Z.of_nat (length (evs ++ [last]))
       = ceil_div (Z.of_nat (Np.ncols data)) by_n
    /\ (forall i e, evs !! i = Some e ->
          ev_index e + by_n < Z.of_nat (Np.ncols data))
    /\ Z.of_nat (Np.ncols data) - ev_index last
       = (if Z.of_nat (Np.ncols data) mod by_n =? 0 then by_n
          else Z.of_nat (Np.ncols data) mod by_n).
Proof.
  intros Hc HC Hby Hfuel.
  destruct (valid_run junk data pc by_n h Hc HC Hby fuel Hfuel)
    as (evs & last & Hrun & Hcount & Hloop & _ & Hidx & Hlo & Hhi & _).
  exists evs, last. split; [exact Hrun|].
  split; [rewrite length_app; simpl; lia|]. split.
  - intros i e He. destruct (Hloop i e He) as (_ & -> & Hlt & _). lia.
  - rewrite Hidx.
    set (c := Z.of_nat (Np.ncols data)) in *.
    set (k := Z.of_nat (length evs)) in *.
    destruct (Z.eq_dec c ((k + 1) * by_n)) as [Heq|Hne].
    + rewrite Heq, Z.mod_mul by lia. simpl. lia.
    + assert (Hr : c - k * by_n = c mod by_n).
      { apply (Z.mod_unique c by_n k); [left; lia | lia]. }
      destruct (Z.eqb_spec (c mod by_n) 0); lia.
Qed.

Lemma C2_number_of_yielded_elements_witness :
  exists evs last,
    drain Scenario.zeroed 5
          (data_reconstruction Scenario.data Scenario.principal_components 2) ∅
      = (evs ++ [last], Exhausted)
    /\ Z.of_nat (length (evs ++ [last]))
       = ceil_div (Z.of_nat (Np.ncols Scenario.data)) 2
    /\ (forall i e, evs !! i = Some e ->
          ev_index e + 2 < Z.of_nat (Np.ncols Scenario.data))
    /\ Z.of_nat (Np.ncols Scenario.data) - ev_index last
       = (if Z.of_nat (Np.ncols Scenario.data) mod 2 =? 0 then 2
          else Z.of_nat (Np.ncols Scenario.data) mod 2).
Proof.
  apply (C2_number_of_yielded_elements Scenario.zeroed Scenario.data
           Scenario.principal_components 2 ∅ 5).
  - simpl. lia.
  - reflexivity.
  - lia.
  - reflexivity.
Defined.

(** C3, as stated, fails on the scenario with block size 1: the run has
    three elements and the integer of the last one is 2, not [c = 3]. *)
Lemma C3_final_index_is_not_c :
  exists e0 e1 e2,
    drain Scenario.zeroed 4
          (data_reconstruction Scenario.data Scenario.principal_components 1) ∅
      = ([e0; e1; e2], Exhausted)
    /\ ev_index e0 = 0
    /\ ev_index e2 = 2
    /\ ev_index e2 <> Z.of_nat (Np.ncols Scenario.data).
Proof.
  eexists _, _, _. split; [vm_compute; reflexivity|].
  split; [reflexivity|]. split; [reflexivity|].
  vm_compute. discriminate.
Qed.

(** C3, amended.  On valid arguments the integer yielded with the
    [i]-th element (from 0) is [i * by_n], the offset [m] at which the
    block of that step starts, that is the number of columns folded in
    before that step; the integer of the last element is
    [(ceil(c / by_n) - 1) * by_n], which is below [c]. *)
Theorem C3_index_is_offset_of_block junk data pc by_n (h : heap) fuel :
  (1 <= Np.ncols data)%nat ->
  Np.nrows pc = Np.ncols data ->
  1 <= by_n ->
  ceil_div (Z.of_nat (Np.ncols data)) by_n < Z.of_nat fuel ->
  exists evs last,
    drain junk fuel (data_reconstruction data pc by_n) h
      = (evs ++ [last], Exhausted)
    /\ (forall i e, (evs ++ [last]) !! i = Some e ->
          ev_index e = Z.of_nat i * by_n)
    /\ ev_index last = (ceil_div (Z.of_nat (Np.ncols data)) by_n - 1) * by_n
    /\ ev_index last < Z.of_nat (Np.ncols data).
Proof.
  intros Hc HC Hby Hfuel.
  destruct (valid_run junk data pc by_n h Hc HC Hby fuel Hfuel)
    as (evs & last & Hrun & Hcount & Hloop & _ & Hidx & Hlo & _ & _).
  exists evs, last. split; [exact Hrun|]. split.
  - intros i e He. apply lookup_snoc in He.
    destruct He as [He | [-> ->]].
    + apply (Hloop i e He).
    + exact Hidx.
  - split; [rewrite Hidx, <- Hcount; f_equal; lia | lia].
Qed.

Lemma C3_index_is_offset_of_block_witness :
  exists evs last,
    drain Scenario.zeroed 5
          (data_reconstruction Scenario.data Scenario.principal_components 2) ∅
      = (evs ++ [last], Exhausted)
    /\ (forall i e, (evs ++ [last]) !! i = Some e ->
          ev_index e = Z.of_nat i * 2)
    /\ ev_index last
       = (ceil_div (Z.of_nat (Np.ncols Scenario.data)) 2 - 1) * 2
    /\ ev_index last < Z.of_nat (Np.ncols Scenario.data).
Proof.
  apply (C3_index_is_offset_of_block Scenario.zeroed Scenario.data
           Scenario.principal_components 2 ∅ 5).
  - simpl. lia.
  - reflexivity.
  - lia.
  - reflexivity.
Defined.

(** C4, as stated, fails for a negative block size: with [by_n = -1] on
    1x1 arguments the first [next] raises nothing and yields an element. *)
Lemma C4_negative_block_size_is_accepted :
  exists l i g h',
    next Scenario.zeroed
         (data_reconstruction (Np.array [[1]]) (Np.array [[1]]) (-1)) ∅
      = (Ok (l, i), g, h')
    /\ -1 < 1.
Proof.
  eexists _, _, _, _. split; [vm_compute; reflexivity | lia].
Qed.

(** C4, amended.  With block size 0 the call still returns a generator;
    its first [next] raises [ZeroDivisionError], from [c // by_n], whatever
    the arrays are; the store is left as it was, the generator is finished
    and no element is produced. *)
Theorem C4_zero_block_size_raises junk data pc (h : heap) fuel :
  next junk (data_reconstruction data pc 0) h
    = (Raise ZeroDivisionError, Finished, h)
  /\ drain junk (S fuel) (data_reconstruction data pc 0) h
     = ([], Failed ZeroDivisionError).
Proof.
  split; reflexivity.
Qed.



(** C6, as stated, fails on the scenario with block size 1: the first
    element, read again after the second one has been yielded, no longer
    holds what it held when it was received. *)
Lemma C6_first_element_changes_at_second_step :
  exists e0 e1 e2,
    drain Scenario.zeroed 4
          (data_reconstruction Scenario.data Scenario.principal_components 1) ∅
      = ([e0; e1; e2], Exhausted)
    /\ ev_seen e0 = Np.array [[1; 0]; [0; 0]]
    /\ ev_heap e1 !!! ev_ref e0 = Np.array [[1; 0]; [0; 1]]
    /\ ev_heap e1 !!! ev_ref e0 <> ev_seen e0.
Proof.
  eexists _, _, _. split; [vm_compute; reflexivity|].
  split; [vm_compute; reflexivity|].
  split; [vm_compute; reflexivity|].
  vm_compute. discriminate.
Qed.

(** C6, amended.  On valid arguments every element but the last is the
    accumulator itself: they are one object, so an earlier one read after
    a later one has been yielded holds what the later one holds.  Only
    the last element is a new array, distinct from the accumulator. *)
Theorem C6_loop_elements_are_the_accumulator
    junk data pc by_n (h : heap) fuel :
  (1 <= Np.ncols data)%nat ->
  Np.nrows pc = Np.ncols data ->
  1 <= by_n ->
  ceil_div (Z.of_nat (Np.ncols data)) by_n < Z.of_nat fuel ->
  exists evs last,
    drain junk fuel (data_reconstruction data pc by_n) h
      = (evs ++ [last], Exhausted)
    /\ (forall i j ei ej, (i < j)%nat ->
          evs !! i = Some ei -> evs !! j = Some ej ->
          ev_ref ei = ev_ref ej
          /\ ev_heap ej !!! ev_ref ei = ev_seen ej)
    /\ (forall i ei, evs !! i = Some ei -> ev_ref last <> ev_ref ei).
Proof.
  intros Hc HC Hby Hfuel.
  destruct (valid_run junk data pc by_n h Hc HC Hby fuel Hfuel)
    as (evs & last & Hrun & _ & Hloop & Hfresh & _).
  exists evs, last. split; [exact Hrun|]. split.
  - intros i j ei ej _ Hi Hj.
    destruct (Hloop i ei Hi) as (Hri & _).
    destruct (Hloop j ej Hj) as (Hrj & _).
    split; [congruence|]. rewrite Hri, <- Hrj. reflexivity.
  - intros i ei Hi. destruct (Hloop i ei Hi) as (Hri & _).
    rewrite Hri. exact Hfresh.
Qed.

Lemma C6_loop_elements_are_the_accumulator_witness :
  exists evs last,
    drain Scenario.zeroed 4
          (data_reconstruction Scenario.data Scenario.principal_components 1) ∅
      = (evs ++ [last], Exhausted)
    /\ (forall i j ei ej, (i < j)%nat ->
          evs !! i = Some ei -> evs !! j = Some ej ->
          ev_ref ei = ev_ref ej
          /\ ev_heap ej !!! ev_ref ei = ev_seen ej)
    /\ (forall i ei, evs !! i = Some ei -> ev_ref last <> ev_ref ei).
Proof.
  apply (C6_loop_elements_are_the_accumulator Scenario.zeroed Scenario.data
           Scenario.principal_components 1 ∅ 4).
  - simpl. lia.
  - reflexivity.
  - lia.
  - reflexivity.
Defined.

(** C7, as stated, fails on the scenario with block size 1 once the
    elements are held together: the first two elements are one array, so
    after the run both read [[1,0],[0,1]], and the first plus the outer
    product of column 1 of [data] and row 1 of [principal_components] is
    not the second. *)
Lemma C7_loop_elements_held_together_are_equal :
  exists e0 e1 e2,
    drain Scenario.zeroed 4
          (data_reconstruction Scenario.data Scenario.principal_components 1) ∅
      = ([e0; e1; e2], Exhausted)
    /\ ev_ref e0 = ev_ref e1
    /\ ev_heap e2 !!! ev_ref e0 = Np.array [[1; 0]; [0; 1]]
    /\ ev_heap e2 !!! ev_ref e1 = Np.array [[1; 0]; [0; 1]]
    /\ outer (column Scenario.data 1) (row Scenario.principal_components 1)
       = Np.array [[0; 0]; [0; 1]]
    /\ NpOps.add (ev_heap e2 !!! ev_ref e0)
                 (outer (column Scenario.data 1)
                        (row Scenario.principal_components 1))
       <> Ok (ev_heap e2 !!! ev_ref e1).
Proof.
  eexists _, _, _. split; [vm_compute; reflexivity|].
  split; [reflexivity|].
  split; [vm_compute; reflexivity|].
  split; [vm_compute; reflexivity|].
  split; [vm_compute; reflexivity|].
  vm_compute. discriminate.
Qed.

(** C7, amended.  With block size 1 a run on valid arguments has exactly
    [c] elements, and each element, read when it is received, is the
    previous one, as it read when it was received, plus the outer product
    of one column of [data] and the matching row of
    [principal_components].  The elements before the last are one and the
    same array, so they cannot be told apart afterwards. *)
Theorem C7_unit_blocks_are_rank1_updates junk data pc (h : heap) fuel :
  (1 <= Np.ncols data)%nat ->
  Np.nrows pc = Np.ncols data ->
  (Np.ncols data < fuel)%nat ->
  exists evs,
    drain junk fuel (data_reconstruction data pc 1) h = (evs, Exhausted)
    /\ length evs = Np.ncols data
    /\ (forall i e e', evs !! i = Some e -> evs !! S i = Some e' ->
          NpOps.add (ev_seen e) (outer (column data (S i)) (row pc (S i)))
          = Ok (ev_seen e'))
    /\ (forall i e e', evs !! i = Some e -> evs !! S i = Some e' ->
          (S (S i) < length evs)%nat ->
          ev_ref e = ev_ref e').
Proof.
  intros Hc HC Hfuel.
  assert (Hceil : ceil_div (Z.of_nat (Np.ncols data)) 1
                  = Z.of_nat (Np.ncols data)).
  { unfold ceil_div. rewrite Z.div_1_r. lia. }
  destruct (valid_run junk data pc 1 h Hc HC ltac:(lia) fuel ltac:(lia))
    as (evs & last & Hrun & Hcount & Hloop & _ & _ & _ & _ & Hlast).
  exists (evs ++ [last]). split; [exact Hrun|].
  rewrite length_app. simpl. split; [lia|].
  assert (Hseen : forall i e, (evs ++ [last]) !! i = Some e ->
                    ev_seen e = acc junk data pc (i + 1)).
  { intros i e He. apply lookup_snoc in He.
    destruct He as [He | [-> ->]].
    - destruct (Hloop i e He) as (_ & _ & _ & ->). f_equal. simpl. lia.
    - rewrite Hlast. f_equal. lia. }
  split.
  - intros i e e' He He'.
    rewrite (Hseen i e He), (Hseen (S i) e' He').
    replace (i + 1)%nat with (S i) by lia.
    apply acc_rank1.
  - intros i e e' He He' Hin.
    rewrite lookup_app_l in He by lia.
    rewrite lookup_app_l in He' by lia.
    destruct (Hloop i e He) as (-> & _).
    destruct (Hloop (S i) e' He') as (-> & _).
    reflexivity.
Qed.

Lemma C7_unit_blocks_are_rank1_updates_witness :
  exists evs,
    drain Scenario.fives 4
          (data_reconstruction Scenario.data Scenario.principal_components 1) ∅
      = (evs, Exhausted)
    /\ length evs = Np.ncols Scenario.data
    /\ (forall i e e', evs !! i = Some e -> evs !! S i = Some e' ->
          NpOps.add (ev_seen e)
                    (outer (column Scenario.data (S i))
                           (row Scenario.principal_components (S i)))
          = Ok (ev_seen e'))
    /\ (forall i e e', evs !! i = Some e -> evs !! S i = Some e' ->
          (S (S i) < length evs)%nat ->
          ev_ref e = ev_ref e').
Proof.
  apply (C7_unit_blocks_are_rank1_updates Scenario.fives Scenario.data
           Scenario.principal_components ∅ 4).
  - simpl. lia.
  - reflexivity.
  - simpl. lia.
Defined.

(** C8.  On the scenario with block size 1 the run has three elements
    with the integers 0, 1 and 2, but the matrices are those of the
    description only on top of what the [np.empty] block held: when the
    block holds 5 in every entry, the elements are [[6,5],[5,5]],
    [[6,5],[5,6]] and [[8,7],[6,7]], and the last one is not the product
    [[3,2],[1,2]]. *)
Theorem C8_scenario_on_a_used_block :
  Scenario.view
    (drain Scenario.fives 4
       (data_reconstruction Scenario.data Scenario.principal_components 1) ∅)
  = ([ ([[6; 5]; [5; 5]], 0); ([[6; 5]; [5; 6]], 1); ([[8; 7]; [6; 7]], 2) ],
     Exhausted)
  /\ NpOps.dot Scenario.data Scenario.principal_components
     = Ok (Np.array [[3; 2]; [1; 2]]).
Proof.
  split; vm_compute; reflexivity.
Qed.

(** The scenario when the block happens to hold zeros: the elements of
    the description. *)
Lemma scenario_on_a_zeroed_block :
  Scenario.view
    (drain Scenario.zeroed 4
       (data_reconstruction Scenario.data Scenario.principal_components 1) ∅)
  = ([ ([[1; 0]; [0; 0]], 0); ([[1; 0]; [0; 1]], 1); ([[3; 2]; [1; 2]], 2) ],
     Exhausted).
Proof.
  vm_compute. reflexivity.
Qed.

(** C9.  The call only builds a generator that has not started.  The
    first [next] does the checking: a block size of 0 raises
    [ZeroDivisionError] whatever the shapes; otherwise shapes that do not
    match raise [AssertionError]; otherwise an element is yielded. *)
Theorem C9_checks_run_at_the_first_next junk data pc by_n (h : heap) :
  data_reconstruction data pc by_n = Created data pc by_n
  /\ (by_n = 0 ->
      next junk (data_reconstruction data pc by_n) h
        = (Raise ZeroDivisionError, Finished, h))
  /\ (by_n <> 0 -> Np.nrows pc <> Np.ncols data ->
      next junk (data_reconstruction data pc by_n) h
        = (Raise AssertionError, Finished, h))
  /\ (by_n <> 0 -> Np.nrows pc = Np.ncols data ->
      exists l i g' h',
        next junk (data_reconstruction data pc by_n) h = (Ok (l, i), g', h')).
Proof.
  split; [reflexivity|]. split; [intros ->; reflexivity|]. split.
  - intros Hby HC.
    unfold data_reconstruction, next, prologue, Np.shape, NpOps.floordiv.
    destruct (Z.eqb_spec by_n 0); [contradiction|]. simpl.
    destruct (Nat.eqb_spec (Np.nrows pc) (Np.ncols data)); [contradiction|].
    reflexivity.
  - intros Hby HC.
    destruct (prologue_any junk data pc by_n h Hby HC)
      as (f & h1 & Hp & Hok & _).
    unfold data_reconstruction, next. rewrite Hp.
    apply resume_yields. exact Hok.
Qed.

Lemma C9_checks_run_at_the_first_next_witness :
  next Scenario.zeroed
       (data_reconstruction Scenario.data Scenario.four_rows 0) ∅
    = (Raise ZeroDivisionError, Finished, ∅)
  /\ next Scenario.zeroed
          (data_reconstruction Scenario.data Scenario.four_rows 2) ∅
     = (Raise AssertionError, Finished, ∅)
  /\ exists l i g' h',
       next Scenario.zeroed
            (data_reconstruction Scenario.data Scenario.principal_components 2)
            ∅
       = (Ok (l, i), g', h').
Proof.
  split; [|split].
  - apply (C9_checks_run_at_the_first_next Scenario.zeroed Scenario.data
             Scenario.four_rows 0 ∅). reflexivity.
  - apply (C9_checks_run_at_the_first_next Scenario.zeroed Scenario.data
             Scenario.four_rows 2 ∅); [lia | simpl; lia].
  - apply (C9_checks_run_at_the_first_next Scenario.zeroed Scenario.data
             Scenario.principal_components 2 ∅); [lia | reflexivity].
Defined.

(** C10.  With a negative block size and shapes that match, the run
    never ends: however many elements are asked for, each request yields
    one, and the integers are [0, by_n, 2 * by_n, ...], so the offset never
    goes up and the test of the loop never fails. *)
Theorem C10_negative_block_size_never_ends junk data pc by_n (h : heap) fuel :
  by_n <= -1 ->
  Np.nrows pc = Np.ncols data ->
  exists evs,
    drain junk fuel (data_reconstruction data pc by_n) h = (evs, StillRunning)
    /\ length evs = fuel
    /\ map ev_index evs = map (fun t => Z.of_nat t * by_n) (seq 0 fuel).
Proof.
  intros Hby HC.
  destruct (prologue_any junk data pc by_n h ltac:(lia) HC)
    as (f & h1 & Hp & Hok & Hfb & Hfm & _).
  destruct (drain_negative junk fuel f h1 Hok ltac:(lia) ltac:(lia))
    as (evs & Hrun & Hidx).
  exists evs. unfold data_reconstruction.
  rewrite (drain_created _ _ _ _ _ _ _ _ Hp).
  split; [exact Hrun|].
  rewrite Hfb, Hfm in Hidx.
  split.
  - rewrite <- (length_map ev_index), Hidx, length_map, length_seq.
    reflexivity.
  - rewrite Hidx. apply map_ext. intros t. lia.
Qed.

Lemma C10_negative_block_size_never_ends_witness :
  exists evs,
    drain Scenario.zeroed 6
          (data_reconstruction Scenario.data Scenario.principal_components (-2))
          ∅
      = (evs, StillRunning)
    /\ length evs = 6%nat
    /\ map ev_index evs = map (fun t => Z.of_nat t * (-2)) (seq 0 6).
Proof.
  apply (C10_negative_block_size_never_ends Scenario.zeroed Scenario.data
           Scenario.principal_components (-2) ∅ 6).
  - lia.
  - reflexivity.
Defined.

(** * Further properties of the generator *)

Section MoreOnGenerator.
Import Np NpOps NpFacts NpOpsFacts.

Lemma prologue_explicit junk data pc by_n (h : heap) :
  by_n <> 0 -> nrows pc = ncols data ->
  prologue junk data pc by_n h =
  Ok ({| f_data := data; f_principal_components := pc; f_by_n := by_n;
         f_c := ncols data; f_L := fresh (dom h); f_m := 0 |},
      <[fresh (dom h) := empty junk (nrows data) (ncols pc)]> h).
Proof.
  intros Hb HC. unfold prologue, shape, floordiv.
  destruct (Z.eqb_spec by_n 0); [contradiction|]. simpl.
  rewrite HC, Nat.eqb_refl. reflexivity.
Qed.

(** One turn of the loop, with what it adds spelled out. *)
Lemma step_turn_content f (h : heap) :
  frame_ok f h ->
  f_m f + f_by_n f < Z.of_nat (f_c f) ->
  exists X S,
    dot (slice_cols (f_data f) (f_m f) (f_m f + f_by_n f))
        (slice_rows (f_principal_components f) (f_m f) (f_m f + f_by_n f))
      = Ok X
    /\ add (h !!! f_L f) X = Ok S
    /\ nrows S = nrows (f_data f)
    /\ ncols S = ncols (f_principal_components f)
    /\ run_to_yield f h
       = Ok (f_L f, f_m f, InLoop (advance f), <[f_L f := S]> h).
Proof.
  intros (Hd & Hp & Hn & HN) Hlt. unfold run_to_yield.
  destruct (Z.ltb_spec (f_m f + f_by_n f) (Z.of_nat (f_c f))); [|lia].
  pose proof (dot_slices (f_data f) (f_principal_components f)
                (f_m f) (f_m f + f_by_n f) ltac:(congruence)) as HX.
  rewrite HX. simpl.
  pose proof (add_same_shape (h !!! f_L f) _ _
                (fun i j =>
                   sumZ (map (fun x =>
                     item (f_data f) i
                       (slice_bound (ncols (f_data f)) (f_m f) + x)
                     * item (f_principal_components f)
                         (slice_bound (ncols (f_data f)) (f_m f) + x) j)
                     (seq 0 (slice_bound (ncols (f_data f))
                                         (f_m f + f_by_n f)
                             - slice_bound (ncols (f_data f)) (f_m f)))))
                Hn HN) as HS.
  rewrite HS. simpl.
  eexists _, _. split; [reflexivity|]. split; [exact HS|].
  split; [reflexivity|]. split; reflexivity.
Qed.

(** The exit of the loop, with the shape of what it yields. *)
Lemma step_exit_shape f (h : heap) :
  frame_ok f h ->
  ~ f_m f + f_by_n f < Z.of_nat (f_c f) ->
  exists A,
    nrows A = nrows (f_data f)
    /\ ncols A = ncols (f_principal_components f)
    /\ run_to_yield f h =
       Ok (fresh (dom h), f_m f, AtLastYield, <[fresh (dom h) := A]> h).
Proof.
  intros (Hd & Hp & Hn & HN) Hge. unfold run_to_yield.
  destruct (Z.ltb_spec (f_m f + f_by_n f) (Z.of_nat (f_c f))); [lia|].
  rewrite dot_slices by congruence. simpl.
  rewrite (add_same_shape _ _ _ _ Hn HN). simpl.
  eexists. split; [|split; [|reflexivity]]; reflexivity.
Qed.

Lemma drain_in_loop_shapes junk fuel : forall f (h : heap),
  frame_ok f h ->
  (forall e, e ∈ (drain junk fuel (InLoop f) h).1 ->
     nrows (ev_seen e) = nrows (f_data f)
     /\ ncols (ev_seen e) = ncols (f_principal_components f))
  /\ (forall ex, (drain junk fuel (InLoop f) h).2 <> Failed ex).
Proof.
  induction fuel as [|fuel IH]; intros f h Hok.
  - simpl. split; [intros e He; inversion He | discriminate].
  - destruct (Z.lt_ge_cases (f_m f + f_by_n f) (Z.of_nat (f_c f)))
      as [Hlt|Hge].
    + destruct (step_turn_content f h Hok Hlt)
        as (X & S & _ & _ & HnS & HNS & Hrun).
      assert (Hok' : frame_ok (advance f) (<[f_L f := S]> h)).
      { destruct Hok as (Hd & Hp & _ & _). unfold frame_ok, advance. simpl.
        rewrite lookup_total_insert_eq. auto. }
      destruct (IH (advance f) _ Hok') as [IHe IHf].
      erewrite drain_yield
        by (simpl; unfold resume; rewrite Hrun; reflexivity).
      simpl. split; [|exact IHf].
      intros e He. apply elem_of_cons in He. destruct He as [-> | He].
      * unfold ev_seen. simpl. rewrite lookup_total_insert_eq. auto.
      * apply (IHe e He).
    + destruct (step_exit_shape f h Hok) as (A & HnA & HNA & Hrun); [lia|].
      erewrite drain_yield
        by (simpl; unfold resume; rewrite Hrun; reflexivity).
      simpl. split.
      * intros e He. apply elem_of_cons in He. destruct He as [-> | He].
        -- unfold ev_seen. simpl. rewrite lookup_total_insert_eq. auto.
        -- destruct fuel; simpl in He; inversion He.
      * destruct fuel; simpl; discriminate.
Qed.

(** X5.  With shapes that match and a block size other than 0, nothing but
    [StopIteration] is ever raised, and every element has the shape
    [(n, N)] of the reconstruction. *)
Theorem run_never_fails_and_keeps_shape junk data pc by_n (h : heap) fuel :
  by_n <> 0 ->
  nrows pc = ncols data ->
  (forall ex,
     (drain junk fuel (data_reconstruction data pc by_n) h).2 <> Failed ex)
  /\ (forall e,
        e ∈ (drain junk fuel (data_reconstruction data pc by_n) h).1 ->
        shape (ev_seen e) = (nrows data, ncols pc)).
Proof.
  intros Hby HC. unfold data_reconstruction.
  pose proof (prologue_explicit junk data pc by_n h Hby HC) as Hp.
  rewrite (drain_created _ _ _ _ _ _ _ _ Hp).
  match type of Hp with _ = Ok (?f, ?h1) =>
    destruct (drain_in_loop_shapes junk fuel f h1) as [He Hf] end.
  { unfold frame_ok. simpl. rewrite lookup_total_insert_eq. simpl. auto. }
  split; [exact Hf|].
  intros e Hin. destruct (He e Hin) as [H1 H2]. simpl in H1, H2.
  unfold shape. congruence.
Qed.

Lemma run_never_fails_and_keeps_shape_witness :
  (forall ex,
     (drain Scenario.fives 6
        (data_reconstruction Scenario.data Scenario.principal_components (-2))
        ∅).2 <> Failed ex)
  /\ (forall e,
        e ∈ (drain Scenario.fives 6
               (data_reconstruction Scenario.data
                  Scenario.principal_components (-2)) ∅).1 ->
        shape (ev_seen e)
        = (nrows Scenario.data, ncols Scenario.principal_components)).
Proof.
  apply (run_never_fails_and_keeps_shape Scenario.fives Scenario.data
           Scenario.principal_components (-2) ∅ 6).
  - lia.
  - reflexivity.
Defined.

(** X3.  A block size that covers all the columns gives a run of one element:
    the loop is never entered, the element comes with the integer 0 and is
    a new array holding the [np.empty] block plus the whole product, and
    the accumulator itself still holds just the block.  This includes
    [data] with no column at all. *)
Theorem block_covering_all_columns_gives_one_element
    junk data pc by_n (h : heap) fuel :
  1 <= by_n ->
  Z.of_nat (ncols data) <= by_n ->
  nrows pc = ncols data ->
  (2 <= fuel)%nat ->
  exists e P,
    drain junk fuel (data_reconstruction data pc by_n) h = ([e], Exhausted)
    /\ ev_index e = 0
    /\ ev_ref e <> fresh (dom h)
    /\ dot data pc = Ok P
    /\ add (empty junk (nrows data) (ncols pc)) P = Ok (ev_seen e)
    /\ ev_heap e !!! fresh (dom h) = empty junk (nrows data) (ncols pc).
Proof.
  intros Hby Hall HC Hfuel.
  destruct fuel as [|[|fuel]]; [lia|lia|].
  set (b := Z.to_nat by_n).
  assert (Hbz : by_n = Z.of_nat b) by (subst b; lia).
  pose proof (prologue_explicit junk data pc by_n h ltac:(lia) HC) as Hp.
  rewrite Hbz in Hp.
  change {| f_data := data; f_principal_components := pc;
            f_by_n := Z.of_nat b; f_c := ncols data;
            f_L := fresh (dom h); f_m := 0 |}
    with (frame_at data pc b (ncols data) (fresh (dom h)) 0) in Hp.
  set (L := fresh (dom h)) in *.
  set (h1 := <[L := empty junk (nrows data) (ncols pc)]> h) in *.
  assert (HL : h1 !!! L = acc junk data pc 0).
  { subst h1. rewrite lookup_total_insert_eq.
    symmetry. apply (acc_0 junk data pc (ncols data) eq_refl HC). }
  pose proof (step_last junk data pc b (ncols data) eq_refl HC L 0%nat h1
                ltac:(lia) ltac:(lia) HL) as Hrun.
  assert (Hne : fresh (dom h1) <> L).
  { intros Heq. apply (is_fresh (dom h1)). rewrite Heq at 1.
    subst h1. rewrite dom_insert_L. set_solver. }
  eexists _, _. unfold data_reconstruction. rewrite Hbz.
  rewrite (drain_created _ _ _ _ _ _ _ _ Hp).
  erewrite drain_yield
    by (simpl; unfold resume; rewrite Hrun; reflexivity).
  assert (Hend : forall hh, drain junk (S fuel) AtLastYield hh
                            = ([], Exhausted)) by reflexivity.
  rewrite Hend. cbn [fst snd ev_index ev_ref ev_heap].
  split; [reflexivity|]. split; [reflexivity|].
  split; [exact Hne|]. split; [apply dot_whole; exact HC|]. split.
  - unfold ev_seen. cbn [ev_heap ev_ref]. rewrite lookup_total_insert_eq.
    unfold empty, acc. rewrite add_tabulate. reflexivity.
  - cbn [ev_heap]. rewrite lookup_total_insert_ne by exact Hne.
    subst h1. apply lookup_total_insert_eq.
Qed.

Lemma block_covering_all_columns_gives_one_element_witness :
  exists e P,
    drain Scenario.fives 2
      (data_reconstruction Scenario.data Scenario.principal_components 3) ∅
      = ([e], Exhausted)
    /\ ev_index e = 0
    /\ ev_ref e <> fresh (dom (∅ : heap))
    /\ dot Scenario.data Scenario.principal_components = Ok P
    /\ add (empty Scenario.fives (nrows Scenario.data)
                  (ncols Scenario.principal_components)) P = Ok (ev_seen e)
    /\ ev_heap e !!! fresh (dom (∅ : heap))
       = empty Scenario.fives (nrows Scenario.data)
               (ncols Scenario.principal_components).
Proof.
  apply (block_covering_all_columns_gives_one_element Scenario.fives
           Scenario.data Scenario.principal_components 3 ∅ 2).
  - lia.
  - simpl. lia.
  - reflexivity.
  - lia.
Defined.

Lemma slice_bound_negative len i :
  i < 0 -> slice_bound len i = Z.to_nat (i + Z.of_nat len).
Proof.
  intros Hi. unfold slice_bound.
  destruct (Z.ltb_spec i 0); [|lia].
  destruct (Z.ltb_spec (i + Z.of_nat len) 0); [lia|].
  destruct (Z.ltb_spec (Z.of_nat len) (i + Z.of_nat len)); [lia|].
  reflexivity.
Qed.

Section NegativeContent.

Variable junk : nat -> nat -> Z.
Variables data pc : ndarray.
Variable by_n : Z.
Variable L : loc.
Hypothesis Hby : by_n <= -1.
Hypothesis HC : nrows pc = ncols data.

Local Abbreviation frame_m m :=
  {| f_data := data; f_principal_components := pc; f_by_n := by_n;
     f_c := ncols data; f_L := L; f_m := m |}.

(** The first turn folds in the columns [0 : by_n], the first
    [c + by_n] ones, or none when [c + by_n] is negative. *)
Lemma negative_first_turn (h : heap) :
  h !!! L = acc junk data pc 0 ->
  run_to_yield (frame_m 0) h =
  Ok (L, 0, InLoop (frame_m (0 + by_n)),
      <[L := acc junk data pc (Z.to_nat (Z.of_nat (ncols data) + by_n))]> h).
Proof.
  intros HL. unfold run_to_yield. simpl.
  destruct (Z.ltb_spec (0 + by_n) (Z.of_nat (ncols data))); [|lia].
  rewrite dot_slices by congruence. simpl.
  rewrite HL. unfold acc at 1. rewrite add_tabulate. simpl.
  do 4 f_equal. unfold acc. apply tabulate_ext. intros i j _ _.
  rewrite (slice_bound_negative _ (0 + by_n)) by lia.
  assert (H0 : slice_bound (ncols data) 0 = 0%nat)
    by (apply (slice_bound_nat (ncols data) 0%nat); lia).
  rewrite H0, Nat.sub_0_r.
  replace (Z.to_nat (Z.of_nat (ncols data) + by_n))
    with (0 + Z.to_nat (0 + by_n + Z.of_nat (ncols data)))%nat by lia.
  rewrite dot_item_split. lia.
Qed.

(** Every later turn takes an empty slice and adds nothing. *)
Lemma negative_later_turn m k (h : heap) :
  m < 0 ->
  h !!! L = acc junk data pc k ->
  run_to_yield (frame_m m) h =
  Ok (L, m, InLoop (frame_m (m + by_n)), <[L := acc junk data pc k]> h).
Proof.
  intros Hm HL. unfold run_to_yield. simpl.
  destruct (Z.ltb_spec (m + by_n) (Z.of_nat (ncols data))); [|lia].
  rewrite dot_slices by congruence. simpl.
  rewrite HL. unfold acc at 1. rewrite add_tabulate. simpl.
  do 4 f_equal. unfold acc. apply tabulate_ext. intros i j _ _.
  rewrite !slice_bound_negative by lia.
  replace (Z.to_nat (m + by_n + Z.of_nat (ncols data))
           - Z.to_nat (m + Z.of_nat (ncols data)))%nat with 0%nat by lia.
  simpl. lia.
Qed.

Lemma negative_later_elements k fuel : forall m (h : heap) e,
  m < 0 ->
  h !!! L = acc junk data pc k ->
  e ∈ (drain junk fuel (InLoop (frame_m m)) h).1 ->
  ev_seen e = acc junk data pc k.
Proof.
  induction fuel as [|fuel IH]; intros m h e Hm HL He.
  - simpl in He. inversion He.
  - erewrite drain_yield in He
      by (simpl; unfold resume; rewrite (negative_later_turn m k h Hm HL);
          reflexivity).
    simpl in He. apply elem_of_cons in He. destruct He as [-> | He].
    + unfold ev_seen. simpl. apply lookup_total_insert_eq.
    + apply (IH (m + by_n) (<[L := acc junk data pc k]> h) e);
        [lia | apply lookup_total_insert_eq | exact He].
Qed.

End NegativeContent.

(** X6.  With a negative block size the reconstruction never moves on: every
    element holds the same matrix, the [np.empty] block plus the product
    over the first [c + by_n] columns (over none when [c + by_n] is
    negative); the last [-by_n] columns are never folded in. *)
Theorem negative_block_size_repeats_one_matrix
    junk data pc by_n (h : heap) fuel e :
  by_n <= -1 ->
  nrows pc = ncols data ->
  e ∈ (drain junk fuel (data_reconstruction data pc by_n) h).1 ->
  exists P,
    prefix_product data pc (Z.to_nat (Z.of_nat (ncols data) + by_n)) = Ok P
    /\ add (empty junk (nrows data) (ncols pc)) P = Ok (ev_seen e).
Proof.
  intros Hby HC He.
  set (k0 := Z.to_nat (Z.of_nat (ncols data) + by_n)) in *.
  assert (Hseen : ev_seen e = acc junk data pc k0).
  { unfold data_reconstruction in He.
    pose proof (prologue_explicit junk data pc by_n h ltac:(lia) HC) as Hp.
    rewrite (drain_created _ _ _ _ _ _ _ _ Hp) in He.
    destruct fuel as [|fuel]; [simpl in He; inversion He|].
    set (L := fresh (dom h)) in *.
    set (h1 := <[L := empty junk (nrows data) (ncols pc)]> h) in *.
    assert (HL : h1 !!! L = acc junk data pc 0).
    { subst h1. rewrite lookup_total_insert_eq.
      symmetry. apply (acc_0 junk data pc (ncols data) eq_refl HC). }
    erewrite drain_yield in He
      by (simpl; unfold resume;
          rewrite (negative_first_turn junk data pc by_n L Hby HC h1 HL);
          reflexivity).
    simpl in He. apply elem_of_cons in He. destruct He as [-> | He].
    - unfold ev_seen. simpl. apply lookup_total_insert_eq.
    - apply (negative_later_elements junk data pc by_n L Hby HC k0 fuel
               (0 + by_n) (<[L := acc junk data pc k0]> h1) e);
        [lia | apply lookup_total_insert_eq | exact He]. }
  eexists. split; [apply prefix_product_ok; [exact HC | lia]|].
  rewrite Hseen. unfold empty, acc. rewrite add_tabulate. reflexivity.
Qed.

Lemma negative_block_size_repeats_one_matrix_witness :
  exists e,
    (drain Scenario.fives 5
       (data_reconstruction Scenario.data Scenario.principal_components
          (-2)) ∅).1 !! 3%nat = Some e
    /\ exists P,
         prefix_product Scenario.data Scenario.principal_components
           (Z.to_nat (Z.of_nat (ncols Scenario.data) + -2)) = Ok P
         /\ add (empty Scenario.fives (nrows Scenario.data)
                       (ncols Scenario.principal_components)) P
            = Ok (ev_seen e).
Proof.
  eexists. split; [vm_compute; reflexivity|].
  apply (negative_block_size_repeats_one_matrix Scenario.fives
           Scenario.data Scenario.principal_components (-2) ∅ 5).
  - lia.
  - reflexivity.
  - apply (list_elem_of_lookup_2 _ 3%nat). vm_compute. reflexivity.
Defined.

(** X7.  The consumer holds the accumulator itself: what it writes into the
    first element before asking again is what the second turn of the loop
    adds its block to. *)
Theorem overwritten_element_flows_into_next junk data pc by_n (h : heap) A :
  1 <= by_n ->
  by_n + by_n < Z.of_nat (ncols data) ->
  nrows pc = ncols data ->
  nrows A = nrows data ->
  ncols A = ncols pc ->
  exists g1 h1,
    next junk (data_reconstruction data pc by_n) h
      = (Ok (fresh (dom h), 0), g1, h1)
    /\ exists X S g2 h2,
         dot (slice_cols data by_n (by_n + by_n))
             (slice_rows pc by_n (by_n + by_n)) = Ok X
         /\ add A X = Ok S
         /\ next junk g1 (<[fresh (dom h) := A]> h1)
            = (Ok (fresh (dom h), by_n), g2, h2)
         /\ h2 !!! fresh (dom h) = S.
Proof.
  intros Hby Htwo HC HnA HNA.
  pose proof (prologue_explicit junk data pc by_n h ltac:(lia) HC) as Hp.
  set (L := fresh (dom h)) in *.
  set (h0 := <[L := empty junk (nrows data) (ncols pc)]> h) in *.
  set (f0 := {| f_data := data; f_principal_components := pc;
                f_by_n := by_n; f_c := ncols data; f_L := L; f_m := 0 |})
    in *.
  assert (Hok0 : frame_ok f0 h0).
  { unfold frame_ok, f0, h0. simpl. rewrite lookup_total_insert_eq.
    simpl. auto. }
  destruct (step_turn_content f0 h0 Hok0) as (X0 & S0 & _ & _ & _ & _ & Hrun0).
  { simpl. lia. }
  exists (InLoop (advance f0)), (<[L := S0]> h0). split.
  { unfold data_reconstruction, next. rewrite Hp. unfold resume.
    rewrite Hrun0. reflexivity. }
  set (h1 := <[L := A]> (<[L := S0]> h0)).
  assert (Hok1 : frame_ok (advance f0) h1).
  { unfold frame_ok, advance, f0, h1. simpl.
    rewrite lookup_total_insert_eq. auto. }
  destruct (step_turn_content (advance f0) h1 Hok1)
    as (X & S & HX & HS & _ & _ & Hrun1).
  { simpl. lia. }
  simpl in HX. unfold h1 in HS. simpl in HS.
  rewrite lookup_total_insert_eq in HS.
  exists X, S, (InLoop (advance (advance f0))), (<[L := S]> h1).
  split; [exact HX|]. split; [exact HS|]. split.
  - unfold next, resume. fold h1. rewrite Hrun1. reflexivity.
  - apply lookup_total_insert_eq.
Qed.

Lemma overwritten_element_flows_into_next_witness :
  exists g1 h1,
    next Scenario.fives
         (data_reconstruction Scenario.data Scenario.principal_components 1) ∅
      = (Ok (fresh (dom (∅ : heap)), 0), g1, h1)
    /\ exists X S g2 h2,
         dot (slice_cols Scenario.data 1 (1 + 1))
             (slice_rows Scenario.principal_components 1 (1 + 1)) = Ok X
         /\ add (zeros 2 2) X = Ok S
         /\ next Scenario.fives g1
                 (<[fresh (dom (∅ : heap)) := zeros 2 2]> h1)
            = (Ok (fresh (dom (∅ : heap)), 1), g2, h2)
         /\ h2 !!! fresh (dom (∅ : heap)) = S.
Proof.
  apply (overwritten_element_flows_into_next Scenario.fives Scenario.data
           Scenario.principal_components 1 ∅ (zeros 2 2)).
  - lia.
  - simpl. lia.
  - reflexivity.
  - reflexivity.
  - reflexivity.
Defined.

End MoreOnGenerator.

(** * The loops of the other cells *)

Section ForRange.
Context {S E : Type}.
Implicit Types (body : nat -> S -> S * option E) (s : S).

Lemma for_range_ext_in body1 body2 len : forall start s,
  (forall k, (start <= k < start + len)%nat -> forall s, body1 k s = body2 k s) ->
  for_range body1 start len s = for_range body2 start len s.
Proof.
  induction len as [|len IH]; intros start s Hext; simpl; [reflexivity|].
  rewrite (Hext start) by lia.
  destruct (body2 start s) as [s' [e|]]; [reflexivity|].
  apply IH. intros k Hk. apply Hext. lia.
Qed.

Lemma for_range_shift body a len : forall start s,
  for_range (fun k => body (a + k)%nat) start len s
  = for_range body (a + start)%nat len s.
Proof.
  induction len as [|len IH]; intros start s; simpl; [reflexivity|].
  destruct (body (a + start)%nat s) as [s' [e|]]; [reflexivity|].
  rewrite IH. f_equal. lia.
Qed.

Lemma for_range_app body len1 len2 : forall start s,
  for_range body start (len1 + len2) s =
  match for_range body start len1 s with
  | (s', None) => for_range body (start + len1)%nat len2 s'
  | (s', Some e) => (s', Some e)
  end.
Proof.
  induction len1 as [|len1 IH]; intros start s; simpl.
  - rewrite Nat.add_0_r. reflexivity.
  - destruct (body start s) as [s' [e|]]; [reflexivity|].
    rewrite IH. replace (Datatypes.S start + len1)%nat
      with (start + Datatypes.S len1)%nat by lia.
    reflexivity.
Qed.

(** Two loops, one inside the other, are one loop over the products of
    their ranges. *)
Lemma for_range_nest (body2 : nat -> nat -> S -> S * option E) m n :
  forall a0 s,
  for_range (fun a => for_range (body2 a) 0 m) a0 n s
  = for_range (fun k => body2 (k / m)%nat (k mod m)%nat) (a0 * m)%nat (n * m)%nat s.
Proof.
  destruct m as [|m].
  - intros a0 s. rewrite Nat.mul_0_r. simpl.
    revert a0 s. induction n as [|n IH]; intros a0 s; simpl; auto.
  - induction n as [|n IH]; intros a0 s; [reflexivity|].
    replace (Datatypes.S n * Datatypes.S m)%nat
      with (Datatypes.S m + n * Datatypes.S m)%nat by lia.
    rewrite for_range_app.
    assert (Hin : for_range
                    (fun k => body2 (k / Datatypes.S m)%nat
                                    (k mod Datatypes.S m)%nat)
                    (a0 * Datatypes.S m)%nat (Datatypes.S m) s
                  = for_range (body2 a0) 0 (Datatypes.S m) s).
    { replace (a0 * Datatypes.S m)%nat
        with (a0 * Datatypes.S m + 0)%nat at 1 by lia.
      rewrite <- (for_range_shift
                    (fun k => body2 (k / Datatypes.S m)%nat
                                    (k mod Datatypes.S m)%nat)).
      apply for_range_ext_in. intros k Hk s0.
      replace ((a0 * Datatypes.S m + k) / Datatypes.S m)%nat with a0.
      - replace ((a0 * Datatypes.S m + k) mod Datatypes.S m)%nat with k;
          [reflexivity|].
        rewrite Nat.add_comm, Nat.Div0.mod_add.
        symmetry. apply Nat.mod_small. lia.
      - rewrite Nat.add_comm, Nat.div_add by lia.
        rewrite Nat.div_small by lia. reflexivity. }
    rewrite Hin.
    change (for_range (fun a => for_range (body2 a) 0 (Datatypes.S m)) a0
              (Datatypes.S n) s)
      with (match for_range (body2 a0) 0 (Datatypes.S m) s with
            | (s', None) =>
                for_range (fun a => for_range (body2 a) 0 (Datatypes.S m))
                          (Datatypes.S a0) n s'
            | (s', Some e) => (s', Some e)
            end).
    destruct (for_range (body2 a0) 0 (Datatypes.S m) s) as [s' [e|]];
      [reflexivity|].
    rewrite IH. f_equal. lia.
Qed.

End ForRange.

(** * Reading the image and label files *)

Section MnistFacts.
Import Mnist.

Variables count rows cols : nat.

Local Abbreviation total := (count * rows * cols)%nat.
Local Abbreviation images_of F :=
  {| dim0 := count; dim1 := rows; dim2 := cols; flat := F |}.
Local Abbreviation pixel_body :=
  (fun k => store_pixel (k / (rows * cols))%nat
                        ((k mod (rows * cols)) / cols)%nat
                        ((k mod (rows * cols)) mod cols)%nat).

Lemma pixel_index k :
  (k < total)%nat ->
  (k / (rows * cols) < count)%nat
  /\ ((k mod (rows * cols)) / cols < rows)%nat
  /\ ((k mod (rows * cols)) mod cols < cols)%nat
  /\ ((k / (rows * cols) * rows + (k mod (rows * cols)) / cols) * cols
      + (k mod (rows * cols)) mod cols = k)%nat.
Proof.
  intros Hk.
  assert (Hrc : (rows * cols <> 0)%nat) by nia.
  assert (Hcols : (cols <> 0)%nat) by nia.
  pose proof (Nat.div_mod_eq k (rows * cols)) as Hk1.
  pose proof (Nat.mod_upper_bound k (rows * cols) Hrc) as Hq.
  pose proof (Nat.div_mod_eq (k mod (rows * cols)) cols) as Hq1.
  pose proof (Nat.mod_upper_bound (k mod (rows * cols)) cols Hcols) as Hi.
  set (n := (k / (rows * cols))%nat) in *.
  set (q := (k mod (rows * cols))%nat) in *.
  set (j := (q / cols)%nat) in *.
  set (i := (q mod cols)%nat) in *.
  split; [nia|]. split; [nia|]. split; [exact Hi | nia].
Qed.

Lemma store_pixel_flat k (f : file) F :
  (k < total)%nat ->
  pixel_body k (f, images_of F) =
  match f with
  | [] => (([], images_of F), Some TypeError)
  | b :: f' => ((f', images_of (<[k := byte_value b]> F)), None)
  end.
Proof.
  intros Hk. destruct (pixel_index k Hk) as (Hn & Hj & Hi & Hidx).
  unfold store_pixel, read. destruct f as [|b f']; simpl; [reflexivity|].
  unfold setitem3. simpl.
  destruct (Nat.ltb_spec (k / (rows * cols)) count); [|lia].
  destruct (Nat.ltb_spec ((k mod (rows * cols)) / cols) rows); [|lia].
  destruct (Nat.ltb_spec ((k mod (rows * cols)) mod cols) cols); [|lia].
  simpl. rewrite Hidx. reflexivity.
Qed.

Lemma pixel_loop len : forall K (f : file) F,
  length F = total -> (K + len <= total)%nat ->
  for_range pixel_body K len (f, images_of F) =
  ((drop len f,
    images_of (take K F ++ map byte_value (take len f)
               ++ drop (K + Nat.min len (length f)) F)),
   if (length f <? len)%nat then Some TypeError else None).
Proof.
  induction len as [|len IH]; intros K f F HF Hle.
  - simpl. rewrite Nat.add_0_r, take_drop. reflexivity.
  - cbn [for_range]. rewrite store_pixel_flat by lia.
    destruct f as [|b f'].
    + simpl. rewrite Nat.add_0_r, take_drop. reflexivity.
    + rewrite IH by (rewrite ?length_insert; lia).
      simpl. f_equal. f_equal. f_equal.
      rewrite (take_S_r _ K (byte_value b))
        by (apply list_lookup_insert_eq; lia).
      rewrite take_insert_ge by lia.
      rewrite drop_insert_lt by lia.
      rewrite <- app_assoc. simpl.
      replace (Datatypes.S (K + Nat.min len (length f')))%nat
        with (K + Datatypes.S (Nat.min len (length f')))%nat by lia.
      reflexivity.
Qed.

(** The three loops, as one equation: [Images] is the bytes after the
    first 16, as far as the file goes, and zeros after that. *)
Lemma load_images_eq (content : list Byte.byte) :
  load_images count rows cols content =
  (images_of (map byte_value (take total (drop 16 content))
              ++ replicate (total - length (drop 16 content)) 0),
   if (length (drop 16 content) <? total)%nat then Some TypeError else None).
Proof.
  unfold load_images, read. cbv beta iota zeta.
  set (f := drop 16 content).
  assert (Hloops : forall s : file * array3,
    for_range (fun n =>
      for_range (fun j =>
        for_range (fun i => store_pixel n j i) 0 cols) 0 rows) 0 count s
    = for_range pixel_body 0 total s).
  { intros s. rewrite (for_range_ext_in _
               (fun n => for_range
                  (fun q => store_pixel n (q / cols)%nat (q mod cols)%nat)
                  0 (rows * cols)%nat)).
    - rewrite (for_range_nest
                 (fun n q => store_pixel n (q / cols)%nat (q mod cols)%nat)
                 (rows * cols) count 0).
      simpl. rewrite Nat.mul_assoc. reflexivity.
    - intros n _ s0.
      rewrite (for_range_nest (fun j i => store_pixel n j i) cols rows 0).
      reflexivity. }
  rewrite Hloops. unfold zeros3.
  rewrite (pixel_loop total 0 f (replicate total 0))
    by (rewrite ?length_replicate; lia).
  simpl. rewrite drop_replicate.
  replace (total - Nat.min total (length f))%nat
    with (total - length f)%nat by lia.
  reflexivity.
Qed.

Lemma label_loop len : forall K (l : file) Labels,
  (K + len <= length Labels)%nat ->
  for_range store_label K len (l, Labels) =
  ((drop len l,
    take K Labels ++ map byte_value (take len l)
    ++ drop (K + Nat.min len (length l)) Labels),
   if (length l <? len)%nat then Some TypeError else None).
Proof.
  induction len as [|len IH]; intros K l Labels Hle.
  - simpl. rewrite Nat.add_0_r, take_drop. reflexivity.
  - cbn [for_range]. unfold store_label at 1, read.
    destruct l as [|b l'].
    + simpl. rewrite Nat.add_0_r, take_drop. reflexivity.
    + simpl take. simpl drop. simpl ord. cbv iota beta.
      destruct (Nat.ltb_spec K (length Labels)); [|lia].
      change (drop 0 l') with l'.
      rewrite IH by (rewrite ?length_insert; lia).
      simpl. f_equal. f_equal.
      rewrite (take_S_r _ K (byte_value b))
        by (apply list_lookup_insert_eq; lia).
      rewrite take_insert_ge by lia.
      rewrite drop_insert_lt by lia.
      rewrite <- app_assoc. simpl.
      replace (Datatypes.S (K + Nat.min len (length l')))%nat
        with (K + Datatypes.S (Nat.min len (length l')))%nat by lia.
      reflexivity.
Qed.

Lemma load_labels_eq (content : list Byte.byte) :
  load_labels count content =
  (map byte_value (take count (drop 8 content))
   ++ replicate (count - length (drop 8 content)) 0,
   if (length (drop 8 content) <? count)%nat then Some TypeError else None).
Proof.
  unfold load_labels, read.
  rewrite (label_loop count 0 (drop 8 content) (replicate count 0))
    by (rewrite ?length_replicate; lia).
  simpl. rewrite drop_replicate.
  replace (count - Nat.min count (length (drop 8 content)))%nat
    with (count - length (drop 8 content))%nat by lia.
  reflexivity.
Qed.

End MnistFacts.

Section MnistTheorems.
Import Mnist.

Lemma lookup_bytes_after (skip total : nat) (content : list Byte.byte) k b :
  (k < total)%nat ->
  content !! (skip + k)%nat = Some b ->
  (map byte_value (take total (drop skip content))
   ++ replicate (total - length (drop skip content)) 0) !! k
  = Some (byte_value b).
Proof.
  intros Hk Hb.
  apply lookup_app_l_Some.
  change (map byte_value (take total (drop skip content)))
    with (byte_value <$> take total (drop skip content)).
  rewrite list_lookup_fmap, lookup_take_lt, lookup_drop by exact Hk.
  rewrite Hb. reflexivity.
Qed.

(** X8.  With a file that is long enough, pixel [(j, i)] of image [n] is the
    byte at offset [16 + (n * rows + j) * cols + i] of the file. *)
Theorem pixel_is_the_byte_at_its_offset
    count rows cols (content : list Byte.byte) n j i :
  (16 + count * rows * cols <= length content)%nat ->
  (n < count)%nat -> (j < rows)%nat -> (i < cols)%nat ->
  exists Images b,
    load_images count rows cols content = (Images, None)
    /\ (dim0 Images, dim1 Images, dim2 Images) = (count, rows, cols)
    /\ content !! (16 + ((n * rows + j) * cols + i))%nat = Some b
    /\ item3 Images n j i = byte_value b.
Proof.
  intros Hlen Hn Hj Hi.
  assert (Hk : ((n * rows + j) * cols + i < count * rows * cols)%nat).
  { assert (H1 : (n * rows + j + 1 <= count * rows)%nat) by nia.
    pose proof (Nat.mul_le_mono_r _ _ cols H1). nia. }
  destruct (lookup_lt_is_Some_2 content
              (16 + ((n * rows + j) * cols + i))%nat) as [b Hb]; [lia|].
  eexists _, b. rewrite load_images_eq.
  destruct (Nat.ltb_spec (length (drop 16 content)) (count * rows * cols));
    [rewrite length_drop in *; lia|].
  split; [reflexivity|]. split; [reflexivity|]. split; [exact Hb|].
  unfold item3. simpl.
  apply nth_lookup_Some. apply lookup_bytes_after; assumption.
Qed.

Lemma pixel_is_the_byte_at_its_offset_witness :
  exists Images b,
    load_images 3 1 2 tiny_image_file = (Images, None)
    /\ (dim0 Images, dim1 Images, dim2 Images) = (3, 1, 2)%nat
    /\ tiny_image_file !! (16 + ((2 * 1 + 0) * 2 + 1))%nat = Some b
    /\ item3 Images 2 0 1 = byte_value b.
Proof.
  apply (pixel_is_the_byte_at_its_offset 3 1 2 tiny_image_file 2 0 1).
  - simpl. lia.
  - lia.
  - lia.
  - lia.
Defined.

(** X9.  With a file that holds fewer bytes after its first 16 than there are
    pixels to read, the cell stops with [TypeError] (from [ord] of the
    empty read); [Images] keeps the pixels read before that and zeros
    everywhere else. *)
Theorem short_image_file_raises_TypeError
    count rows cols (content : list Byte.byte) :
  (length content - 16 < count * rows * cols)%nat ->
  exists Images,
    load_images count rows cols content = (Images, Some TypeError)
    /\ length (flat Images) = (count * rows * cols)%nat
    /\ (forall k b, content !! (16 + k)%nat = Some b ->
          flat Images !! k = Some (byte_value b))
    /\ (forall k, (length content <= 16 + k)%nat ->
          (k < count * rows * cols)%nat ->
          flat Images !! k = Some 0).
Proof.
  intros Hlen. eexists. rewrite load_images_eq.
  destruct (Nat.ltb_spec (length (drop 16 content)) (count * rows * cols))
    as [Hlt|Hge]; [|rewrite length_drop in Hge; lia].
  split; [reflexivity|]. simpl.
  rewrite length_drop in Hlt.
  split; [|split].
  - rewrite length_app, length_map, length_take, length_replicate,
      length_drop. lia.
  - intros k b Hb. pose proof (lookup_lt_Some _ _ _ Hb).
    apply lookup_bytes_after; [lia | exact Hb].
  - intros k Hk1 Hk2. rewrite lookup_app_r
      by (rewrite length_map, length_take, length_drop; lia).
    apply lookup_replicate_2.
    rewrite length_map, length_take, !length_drop. lia.
Qed.

Lemma short_image_file_raises_TypeError_witness :
  exists Images,
    load_images 2 2 2 tiny_image_file = (Images, Some TypeError)
    /\ length (flat Images) = (2 * 2 * 2)%nat
    /\ (forall k b, tiny_image_file !! (16 + k)%nat = Some b ->
          flat Images !! k = Some (byte_value b))
    /\ (forall k, (length tiny_image_file <= 16 + k)%nat ->
          (k < 2 * 2 * 2)%nat ->
          flat Images !! k = Some 0).
Proof.
  apply (short_image_file_raises_TypeError 2 2 2 tiny_image_file).
  simpl. lia.
Defined.

(** X10.  The 16 bytes of the header are skipped without being looked at: two
    files that differ only there give the same outcome. *)
Theorem image_header_is_not_looked_at
    count rows cols (hdr hdr' body : list Byte.byte) :
  length hdr = 16%nat -> length hdr' = 16%nat ->
  load_images count rows cols (hdr ++ body)
  = load_images count rows cols (hdr' ++ body).
Proof.
  intros H1 H2. rewrite !load_images_eq.
  rewrite !drop_app_length' by (symmetry; assumption). reflexivity.
Qed.

Lemma image_header_is_not_looked_at_witness :
  load_images 3 1 2 (replicate 16 Byte.x00 ++ [Byte.x01; Byte.x02])
  = load_images 3 1 2 (replicate 16 Byte.xff ++ [Byte.x01; Byte.x02]).
Proof.
  apply (image_header_is_not_looked_at 3 1 2); reflexivity.
Defined.

(** X11.  With a file that is long enough, label [n] is the byte at offset
    [8 + n] of the label file. *)
Theorem label_is_the_byte_at_its_offset count (content : list Byte.byte) n :
  (8 + count <= length content)%nat ->
  (n < count)%nat ->
  exists Labels b,
    load_labels count content = (Labels, None)
    /\ length Labels = count
    /\ content !! (8 + n)%nat = Some b
    /\ Labels !! n = Some (byte_value b).
Proof.
  intros Hlen Hn.
  destruct (lookup_lt_is_Some_2 content (8 + n)%nat) as [b Hb]; [lia|].
  eexists _, b. rewrite load_labels_eq.
  destruct (Nat.ltb_spec (length (drop 8 content)) count);
    [rewrite length_drop in *; lia|].
  split; [reflexivity|]. split.
  - rewrite length_app, length_map, length_take, length_replicate,
      length_drop. lia.
  - split; [exact Hb|]. apply lookup_bytes_after; assumption.
Qed.

Lemma label_is_the_byte_at_its_offset_witness :
  exists Labels b,
    load_labels 3 tiny_label_file = (Labels, None)
    /\ length Labels = 3%nat
    /\ tiny_label_file !! (8 + 1)%nat = Some b
    /\ Labels !! 1%nat = Some (byte_value b).
Proof.
  apply (label_is_the_byte_at_its_offset 3 tiny_label_file 1).
  - simpl. lia.
  - lia.
Defined.

Lemma slice_bound_clip len k :
  Np.slice_bound len (Z.of_nat k) = Nat.min k len.
Proof.
  unfold Np.slice_bound.
  destruct (Z.ltb_spec (Z.of_nat k) 0); [lia|].
  destruct (Z.ltb_spec (Z.of_nat k) 0); [lia|].
  destruct (Z.ltb_spec (Z.of_nat len) (Z.of_nat k)); lia.
Qed.

(** X12.  From the file to the training matrix: after the images are read,
    reshaped to one row per image and cut to the first [keep] rows (4000
    in the notebook), row [n] is the run of [rows * cols] bytes of the
    file that starts at offset [16 + n * rows * cols]. *)
Theorem training_rows_are_runs_of_the_file
    count rows cols keep (content : list Byte.byte) n k :
  (16 + count * rows * cols <= length content)%nat ->
  (n < Nat.min count keep)%nat ->
  (k < rows * cols)%nat ->
  exists Images Data b,
    load_images count rows cols content = (Images, None)
    /\ reshape_rows Images count = Ok Data
    /\ Np.shape (Np.slice_rows Data 0 (Z.of_nat keep))
       = (Nat.min count keep, (rows * cols)%nat)
    /\ content !! (16 + (n * (rows * cols) + k))%nat = Some b
    /\ Np.item (Np.slice_rows Data 0 (Z.of_nat keep)) n k = byte_value b.
Proof.
  intros Hlen Hn Hk.
  assert (Hidx : (n * (rows * cols) + k < count * rows * cols)%nat) by nia.
  destruct (lookup_lt_is_Some_2 content
              (16 + (n * (rows * cols) + k))%nat) as [b Hb]; [lia|].
  eexists _, _, b. rewrite load_images_eq.
  destruct (Nat.ltb_spec (length (drop 16 content)) (count * rows * cols));
    [rewrite length_drop in *; lia|].
  split; [reflexivity|].
  assert (Hdiv : (count * rows * cols / count = rows * cols)%nat).
  { replace (count * rows * cols)%nat with (rows * cols * count)%nat by lia.
    apply Nat.div_mul. lia. }
  assert (Hmod : (count * rows * cols mod count = 0)%nat).
  { replace (count * rows * cols)%nat with (rows * cols * count)%nat by lia.
    apply Nat.Div0.mod_mul. }
  unfold reshape_rows. cbn [dim0 dim1 dim2 flat].
  rewrite Hmod, Hdiv.
  destruct (Nat.eqb_spec count 0); [lia|]. cbn [orb negb Nat.eqb].
  split; [reflexivity|].
  unfold Np.slice_rows. cbn [Np.nrows Np.ncols Np.tabulate].
  rewrite slice_bound_clip.
  assert (H0 : Np.slice_bound count 0 = 0%nat)
    by (apply (slice_bound_clip count 0%nat)).
  rewrite H0, Nat.sub_0_r.
  split; [unfold Np.shape; simpl; f_equal; apply Nat.min_comm|].
  split; [exact Hb|].
  rewrite NpFacts.item_tabulate by lia.
  rewrite NpFacts.item_tabulate by lia.
  apply nth_lookup_Some. apply lookup_bytes_after; assumption.
Qed.

Lemma training_rows_are_runs_of_the_file_witness :
  exists Images Data b,
    load_images 3 1 2 tiny_image_file = (Images, None)
    /\ reshape_rows Images 3 = Ok Data
    /\ Np.shape (Np.slice_rows Data 0 (Z.of_nat 2))
       = (Nat.min 3 2, (1 * 2)%nat)
    /\ tiny_image_file !! (16 + (1 * (1 * 2) + 1))%nat = Some b
    /\ Np.item (Np.slice_rows Data 0 (Z.of_nat 2)) 1 1 = byte_value b.
Proof.
  apply (training_rows_are_runs_of_the_file 3 1 2 2 tiny_image_file 1 1).
  - simpl. lia.
  - simpl. lia.
  - lia.
Defined.

End MnistTheorems.

(** * The elements as running sums *)

Section RunningSums.
Import Np NpOps NpFacts NpOpsFacts.

(** Adding the product of the columns [k : k'] to what the accumulator
    holds after [k] columns gives what it holds after [k'] columns. *)
Lemma acc_add_block junk data pc k k' :
  nrows pc = ncols data ->
  (k <= k')%nat -> (k' <= ncols data)%nat ->
  exists X,
    dot (slice_cols data (Z.of_nat k) (Z.of_nat k'))
        (slice_rows pc (Z.of_nat k) (Z.of_nat k')) = Ok X
    /\ add (acc junk data pc k) X = Ok (acc junk data pc k').
Proof.
  intros HC Hk Hk'. eexists. split.
  - apply dot_slices. congruence.
  - unfold acc. rewrite add_tabulate. f_equal.
    apply tabulate_ext. intros i j _ _.
    rewrite !slice_bound_nat by lia.
    replace (dot_item data pc k' i j)
      with (dot_item data pc (k + (k' - k)) i j) by (f_equal; lia).
    rewrite dot_item_split. lia.
Qed.

Lemma fold_blocks_acc junk data pc b t :
  nrows pc = ncols data ->
  (t * b <= ncols data)%nat ->
  fold_blocks junk data pc (Z.of_nat b) t = Ok (acc junk data pc (t * b)).
Proof.
  intros HC. induction t as [|t IH]; intros Ht.
  - simpl. symmetry. f_equal.
    apply (acc_0 junk data pc (ncols data) eq_refl HC).
  - cbn [fold_blocks]. rewrite IH by lia. cbn [mbind result_bind].
    destruct (acc_add_block junk data pc (t * b) (Datatypes.S t * b) HC)
      as (X & HX & Hadd); [lia | lia |].
    replace (Z.of_nat t * Z.of_nat b) with (Z.of_nat (t * b)) by lia.
    replace (Z.of_nat (t * b) + Z.of_nat b)
      with (Z.of_nat (Datatypes.S t * b)) by lia.
    rewrite HX. exact Hadd.
Qed.

(** X1.  On valid arguments every element, read when it is received, is
    what the loop has summed up to then, in the order in which the loop
    sums: the [i]-th element (from 0) is the [np.empty] block after
    [i + 1] turns of "add the product of the next [by_n] columns and
    rows", and the last element is the sum after all the turns plus the
    product of the columns and rows that are left. *)
Theorem snapshots_are_running_sums junk data pc by_n (h : heap) fuel :
  (1 <= ncols data)%nat ->
  nrows pc = ncols data ->
  1 <= by_n ->
  ceil_div (Z.of_nat (ncols data)) by_n < Z.of_nat fuel ->
  exists evs last,
    drain junk fuel (data_reconstruction data pc by_n) h
      = (evs ++ [last], Exhausted)
    /\ (forall i e, evs !! i = Some e ->
          fold_blocks junk data pc by_n (i + 1) = Ok (ev_seen e))
    /\ exists L X,
         fold_blocks junk data pc by_n (length evs) = Ok L
         /\ dot (slice_cols data (Z.of_nat (length evs) * by_n)
                            (Z.of_nat (ncols data)))
                (slice_rows pc (Z.of_nat (length evs) * by_n)
                            (Z.of_nat (ncols data))) = Ok X
         /\ add L X = Ok (ev_seen last).
Proof.
  intros Hc HC Hby Hfuel.
  destruct (valid_run junk data pc by_n h Hc HC Hby fuel Hfuel)
    as (evs & last & Hrun & _ & Hloop & _ & _ & Hlo & Hhi & Hlast).
  set (b := Z.to_nat by_n) in *.
  assert (Hbz : by_n = Z.of_nat b) by (subst b; lia).
  exists evs, last. split; [exact Hrun|]. split.
  - intros i e He. destruct (Hloop i e He) as (_ & _ & Hlt & ->).
    rewrite Hbz. apply fold_blocks_acc; [exact HC | nia].
  - destruct (acc_add_block junk data pc (length evs * b) (ncols data) HC)
      as (X & HX & Hadd); [nia | lia |].
    exists (acc junk data pc (length evs * b)), X.
    split; [rewrite Hbz; apply fold_blocks_acc; [exact HC | nia]|].
    split.
    + replace (Z.of_nat (length evs) * by_n)
        with (Z.of_nat (length evs * b)) by nia.
      exact HX.
    + rewrite Hlast. exact Hadd.
Qed.

Lemma snapshots_are_running_sums_witness :
  exists evs last,
    drain Scenario.fives 3
      (data_reconstruction Scenario.data Scenario.principal_components 2) ∅
      = (evs ++ [last], Exhausted)
    /\ (forall i e, evs !! i = Some e ->
          fold_blocks Scenario.fives Scenario.data
            Scenario.principal_components 2 (i + 1) = Ok (ev_seen e))
    /\ exists L X,
         fold_blocks Scenario.fives Scenario.data
           Scenario.principal_components 2 (length evs) = Ok L
         /\ dot (slice_cols Scenario.data (Z.of_nat (length evs) * 2)
                            (Z.of_nat (ncols Scenario.data)))
                (slice_rows Scenario.principal_components
                            (Z.of_nat (length evs) * 2)
                            (Z.of_nat (ncols Scenario.data))) = Ok X
         /\ add L X = Ok (ev_seen last).
Proof.
  apply (snapshots_are_running_sums Scenario.fives Scenario.data
           Scenario.principal_components 2 ∅ 3).
  - simpl. lia.
  - reflexivity.
  - lia.
  - reflexivity.
Defined.

End RunningSums.

(** * The grid of reconstructions *)

Lemma axes_lookup_in_grid R Cg k :
  (k < R * Cg)%nat ->
  Figure.axes_lookup (Figure.AxesGrid R Cg) (k / Cg) (k mod Cg) = None.
Proof.
  intros Hk. simpl.
  assert (HCg : (Cg <> 0)%nat) by nia.
  assert (Hrow : (k / Cg < R)%nat)
    by (apply Nat.Div0.div_lt_upper_bound; lia).
  pose proof (Nat.mod_upper_bound k Cg HCg) as Hcol.
  destruct (Nat.ltb_spec (k / Cg) R); [|lia].
  destruct (Nat.ltb_spec (k mod Cg) Cg); [|lia].
  reflexivity.
Qed.

Section GridFacts.
Import Np NpOps Figure.

Variable junk : nat -> nat -> Z.
Variables data pc : ndarray.
Variables R Cg S a b s : nat.
Variable h0 : heap.
Variable L : loc.
Hypothesis HC : nrows pc = ncols data.
Hypothesis Hsize : (nrows data * ncols pc = S * a * b)%nat.
Hypothesis Hs : (s < S)%nat.

Local Abbreviation c := (ncols data).
Local Abbreviation image_of m :=
  (tabulate a b (fun y x =>
     flat_item (acc junk data pc m) ((s * a + y) * b + x))).
Local Abbreviation panel_at :=
  (fun k => {| p_row := (k / Cg)%nat; p_col := (k mod Cg)%nat;
               p_image := image_of (k + 1)%nat; p_layers := Z.of_nat k |}).
Local Abbreviation body :=
  (fun k => draw_panel junk (AxesGrid R Cg) S a b s
                       (k / Cg)%nat (k mod Cg)%nat).

Lemma reshape_pick_acc m :
  reshape_pick (acc junk data pc m) S a b s = inl (image_of m).
Proof.
  unfold reshape_pick. simpl.
  destruct (Nat.eqb_spec (nrows data * ncols pc) (S * a * b)); [|lia].
  destruct (Nat.ltb_spec s S); [|lia].
  reflexivity.
Qed.

Lemma grid_turns len : forall t drawn,
  (t + len < c)%nat ->
  (t + len <= R * Cg)%nat ->
  for_range body t len
    (InLoop (frame_at data pc 1 c L t), <[L := acc junk data pc t]> h0, drawn)
  = ((InLoop (frame_at data pc 1 c L (t + len)),
      <[L := acc junk data pc (t + len)]> h0,
      drawn ++ map panel_at (seq t len)), None).
Proof.
  induction len as [|len IH]; intros t drawn Hlt Hin.
  - simpl. rewrite Nat.add_0_r, app_nil_r. reflexivity.
  - cbn [for_range]. unfold draw_panel at 1. cbn [next]. unfold resume.
    rewrite (step_loop junk data pc 1 c eq_refl HC L t)
      by (try apply lookup_total_insert_eq; lia).
    rewrite axes_lookup_in_grid by lia.
    rewrite insert_insert_eq, lookup_total_insert_eq, reshape_pick_acc.
    replace (Datatypes.S t) with (t + 1)%nat by lia.
    rewrite IH by lia.
    replace (t + 1 + len)%nat with (t + Datatypes.S len)%nat by lia.
    rewrite <- app_assoc.
    replace (seq (t + 1) len) with (seq (Datatypes.S t) len)
      by (f_equal; lia).
    reflexivity.
Qed.

(** The [c = m + 1] elements of the run, drawn one after the other. *)
Lemma grid_whole_run m drawn :
  c = (m + 1)%nat ->
  (m + 1 <= R * Cg)%nat ->
  for_range body 0 (m + 1)
    (InLoop (frame_at data pc 1 c L 0), <[L := acc junk data pc 0]> h0, drawn)
  = ((AtLastYield,
      <[fresh (dom (<[L := acc junk data pc m]> h0))
          := acc junk data pc (m + 1)]> (<[L := acc junk data pc m]> h0),
      drawn ++ map panel_at (seq 0 (m + 1))), None).
Proof.
  intros Hc Hin.
  rewrite for_range_app, grid_turns by lia.
  cbn [for_range Nat.add]. unfold draw_panel at 1. cbn [next]. unfold resume.
  rewrite (step_last junk data pc 1 c eq_refl HC L m)
    by (try apply lookup_total_insert_eq; lia).
  rewrite axes_lookup_in_grid by lia.
  rewrite lookup_total_insert_eq, Hc, reshape_pick_acc.
  rewrite <- app_assoc, seq_app, map_app. reflexivity.
Qed.

Lemma grid_from_created len drawn (h : heap) :
  L = fresh (dom h) -> h0 = h ->
  for_range body 0 (Datatypes.S len) (Created data pc 1, h, drawn)
  = for_range body 0 (Datatypes.S len)
      (InLoop (frame_at data pc 1 c L 0), <[L := acc junk data pc 0]> h0,
       drawn).
Proof.
  intros -> ->. cbn [for_range]. unfold draw_panel at 1 3. cbn [next].
  rewrite (prologue_explicit junk data pc 1 h ltac:(lia) HC).
  rewrite (acc_0 junk data pc c eq_refl HC).
  reflexivity.
Qed.

(** What the panels of a run show. *)
Lemma panels_of_run K k p :
  (K <= c)%nat ->
  map panel_at (seq 0 K) !! k = Some p ->
  p_row p = (k / Cg)%nat
  /\ p_col p = (k mod Cg)%nat
  /\ p_layers p = Z.of_nat k
  /\ exists A,
       fold_blocks junk data pc 1 (k + 1) = Ok A
       /\ reshape_pick A S a b s = inl (p_image p).
Proof.
  intros HK Hp. apply lookup_map_seq in Hp. destruct Hp as [Hk ->].
  cbn [p_row p_col p_layers p_image].
  split; [reflexivity|]. split; [reflexivity|]. split; [reflexivity|].
  exists (acc junk data pc (k + 1)). split.
  - change (fold_blocks junk data pc 1 (k + 1))
      with (fold_blocks junk data pc (Z.of_nat 1) (k + 1)).
    rewrite (fold_blocks_acc junk data pc 1 (k + 1) HC) by lia.
    rewrite Nat.mul_1_r. reflexivity.
  - apply reshape_pick_acc.
Qed.

End GridFacts.

Section GridTheorems.
Import Np NpOps Figure.

Lemma subplots_grid R Cg :
  (2 <= R)%nat -> (2 <= Cg)%nat -> subplots R Cg = Some (AxesGrid R Cg).
Proof.
  intros HR HCg. unfold subplots.
  destruct (Nat.eqb_spec R 0); [lia|].
  destruct (Nat.eqb_spec Cg 0); [lia|].
  destruct (Nat.eqb_spec R 1); [lia|].
  destruct (Nat.eqb_spec Cg 1); [lia|].
  reflexivity.
Qed.

Lemma grid_as_one_loop junk R Cg S a b s data pc (h : heap) :
  (2 <= R)%nat -> (2 <= Cg)%nat ->
  reconstruction_grid junk R Cg S a b s data pc h
  = for_range (fun k => draw_panel junk (AxesGrid R Cg) S a b s
                                   (k / Cg)%nat (k mod Cg)%nat)
              0 (R * Cg) (Created data pc 1, h, []).
Proof.
  intros HR HCg. unfold reconstruction_grid, data_reconstruction.
  rewrite subplots_grid by assumption.
  rewrite (for_range_nest
             (fun N i => draw_panel junk (AxesGrid R Cg) S a b s N i) Cg R 0).
  reflexivity.
Qed.

(** X13.  For a grid of at least two rows and two columns (27 by 25 in the
    notebook): when the compressed data has at least as many columns as
    the grid has panels, the cell fills the grid row by row without an
    exception.  The panel at place [k] is titled with the number [k], and
    shows sample [s] of the element that the loop has summed over
    [k + 1] turns: one component more than its title says. *)
Theorem grid_is_filled_when_columns_suffice
    junk R Cg S a b s data pc (h : heap) :
  (2 <= R)%nat -> (2 <= Cg)%nat ->
  nrows pc = ncols data ->
  (nrows data * ncols pc = S * a * b)%nat ->
  (s < S)%nat ->
  (R * Cg <= ncols data)%nat ->
  exists g' h' panels,
    reconstruction_grid junk R Cg S a b s data pc h = ((g', h', panels), None)
    /\ length panels = (R * Cg)%nat
    /\ forall k p, panels !! k = Some p ->
         p_row p = (k / Cg)%nat
         /\ p_col p = (k mod Cg)%nat
         /\ p_layers p = Z.of_nat k
         /\ exists A,
              fold_blocks junk data pc 1 (k + 1) = Ok A
              /\ reshape_pick A S a b s = inl (p_image p).
Proof.
  intros HR HCg HC Hsize Hs HK.
  rewrite grid_as_one_loop by assumption.
  destruct (R * Cg)%nat as [|K] eqn:HRC; [nia|].
  rewrite (grid_from_created junk data pc R Cg S a b s h (fresh (dom h)) HC
             Hsize Hs K [] h eq_refl eq_refl).
  destruct (Nat.eq_dec (Datatypes.S K) (ncols data)) as [Heq|Hne].
  - replace (Datatypes.S K) with (K + 1)%nat by lia.
    rewrite (grid_whole_run junk data pc R Cg S a b s h (fresh (dom h))
               HC Hsize Hs K []) by lia.
    eexists _, _, _. split; [reflexivity|].
    split; [simpl; rewrite length_map, length_seq; lia|].
    intros k p Hp.
    apply (panels_of_run junk data pc Cg S a b s HC Hsize Hs (K + 1) k p);
      [lia | exact Hp].
  - rewrite (grid_turns junk data pc R Cg S a b s h (fresh (dom h))
               HC Hsize Hs (Datatypes.S K) 0 []) by lia.
    eexists _, _, _. split; [reflexivity|].
    split; [rewrite app_nil_l, length_map, length_seq; reflexivity|].
    intros k p Hp.
    apply (panels_of_run junk data pc Cg S a b s HC Hsize Hs
             (Datatypes.S K) k p); [lia | exact Hp].
Qed.

Lemma grid_is_filled_when_columns_suffice_witness :
  exists g' h' panels,
    reconstruction_grid Scenario.fives 2 2 2 1 1 1
      Scenario.four_columns Scenario.four_rows ∅ = ((g', h', panels), None)
    /\ length panels = (2 * 2)%nat
    /\ forall k p, panels !! k = Some p ->
         p_row p = (k / 2)%nat
         /\ p_col p = (k mod 2)%nat
         /\ p_layers p = Z.of_nat k
         /\ exists A,
              fold_blocks Scenario.fives Scenario.four_columns
                Scenario.four_rows 1 (k + 1) = Ok A
              /\ reshape_pick A 2 1 1 1 = inl (p_image p).
Proof.
  apply (grid_is_filled_when_columns_suffice Scenario.fives 2 2 2 1 1 1
           Scenario.four_columns Scenario.four_rows ∅).
  - lia.
  - lia.
  - reflexivity.
  - reflexivity.
  - lia.
  - simpl. lia.
Defined.

(** X14.  For a grid of at least two rows and two columns: when the grid
    has more panels than the compressed data has columns, the cell draws
    one panel per column and then stops with [StopIteration], which
    [next] raises on the finished generator. *)
Theorem grid_stops_when_columns_run_out
    junk R Cg S a b s data pc (h : heap) :
  (2 <= R)%nat -> (2 <= Cg)%nat ->
  nrows pc = ncols data ->
  (nrows data * ncols pc = S * a * b)%nat ->
  (s < S)%nat ->
  (1 <= ncols data)%nat ->
  (ncols data < R * Cg)%nat ->
  exists h' panels,
    reconstruction_grid junk R Cg S a b s data pc h
      = ((Finished, h', panels), Some (Other StopIteration))
    /\ length panels = ncols data
    /\ forall k p, panels !! k = Some p ->
         p_row p = (k / Cg)%nat
         /\ p_col p = (k mod Cg)%nat
         /\ p_layers p = Z.of_nat k.
Proof.
  intros HR HCg HC Hsize Hs Hc HK.
  rewrite grid_as_one_loop by assumption.
  destruct (R * Cg)%nat as [|K] eqn:HRC; [lia|].
  rewrite (grid_from_created junk data pc R Cg S a b s h (fresh (dom h)) HC
             Hsize Hs K [] h eq_refl eq_refl).
  set (m := (ncols data - 1)%nat).
  replace (Datatypes.S K)
    with ((m + 1) + Datatypes.S (K - ncols data))%nat by lia.
  rewrite for_range_app.
  rewrite (grid_whole_run junk data pc R Cg S a b s h (fresh (dom h))
             HC Hsize Hs m []) by lia.
  cbn [for_range]. unfold draw_panel at 1. cbn [next].
  eexists _, _. split; [reflexivity|].
  split; [rewrite app_nil_l, length_map, length_seq; lia|].
  intros k p Hp.
  destruct (panels_of_run junk data pc Cg S a b s HC Hsize Hs (m + 1) k p)
    as (H1 & H2 & H3 & _); [lia | exact Hp | auto].
Qed.

Lemma grid_stops_when_columns_run_out_witness :
  exists h' panels,
    reconstruction_grid Scenario.fives 2 2 2 1 2 1
      Scenario.data Scenario.principal_components ∅
      = ((Finished, h', panels), Some (Other StopIteration))
    /\ length panels = ncols Scenario.data
    /\ forall k p, panels !! k = Some p ->
         p_row p = (k / 2)%nat
         /\ p_col p = (k mod 2)%nat
         /\ p_layers p = Z.of_nat k.
Proof.
  apply (grid_stops_when_columns_run_out Scenario.fives 2 2 2 1 2 1
           Scenario.data Scenario.principal_components ∅).
  - lia.
  - lia.
  - reflexivity.
  - reflexivity.
  - lia.
  - simpl. lia.
  - simpl. lia.
Defined.

Lemma reshape_pick_wrong_size A S a b s :
  (nrows A * ncols A <> S * a * b)%nat ->
  reshape_pick A S a b s = inr (Other ValueError).
Proof.
  intros Hne. unfold reshape_pick.
  destruct (Nat.eqb_spec (nrows A * ncols A) (S * a * b)); [contradiction|].
  reflexivity.
Qed.

(** X15.  For a grid of at least two rows and two columns: when the size
    of the reconstruction is not the size that the reshape asks for, the
    cell stops at its first panel with [ValueError]: one element has been
    taken from the generator and nothing is drawn. *)
Theorem grid_rejects_a_wrong_size junk R Cg S a b s data pc (h : heap) :
  (2 <= R)%nat -> (2 <= Cg)%nat ->
  nrows pc = ncols data ->
  (nrows data * ncols pc <> S * a * b)%nat ->
  exists g' h',
    reconstruction_grid junk R Cg S a b s data pc h
    = ((g', h', []), Some (Other ValueError))
    /\ g' <> data_reconstruction data pc 1.
Proof.
  intros HR HCg HC Hsize.
  rewrite grid_as_one_loop by assumption.
  destruct (R * Cg)%nat as [|K] eqn:HRC; [nia|].
  cbn [for_range]. unfold draw_panel at 1. cbn [next].
  rewrite (prologue_explicit junk data pc 1 h ltac:(lia) HC).
  assert (Hax : axes_lookup (AxesGrid R Cg) (0 / Cg) (0 mod Cg) = None).
  { apply (axes_lookup_in_grid R Cg 0). lia. }
  set (L := fresh (dom h)).
  set (h1 := <[L := empty junk (nrows data) (ncols pc)]> h).
  set (f0 := {| f_data := data; f_principal_components := pc; f_by_n := 1;
                f_c := ncols data; f_L := L; f_m := 0 |}).
  assert (Hok : frame_ok f0 h1).
  { unfold frame_ok, f0, h1. simpl. rewrite lookup_total_insert_eq.
    simpl. auto. }
  unfold resume.
  destruct (Z.lt_ge_cases (f_m f0 + f_by_n f0) (Z.of_nat (f_c f0)))
    as [Hlt|Hge].
  - destruct (step_turn_content f0 h1 Hok Hlt)
      as (X & A & _ & _ & HnA & HNA & ->).
    rewrite Hax, lookup_total_insert_eq.
    rewrite reshape_pick_wrong_size by (rewrite HnA, HNA; exact Hsize).
    eexists _, _. split; [reflexivity | discriminate].
  - destruct (step_exit_shape f0 h1 Hok) as (A & HnA & HNA & ->); [lia|].
    rewrite Hax, lookup_total_insert_eq.
    rewrite reshape_pick_wrong_size by (rewrite HnA, HNA; exact Hsize).
    eexists _, _. split; [reflexivity | discriminate].
Qed.

Lemma grid_rejects_a_wrong_size_witness :
  exists g' h',
    reconstruction_grid Scenario.fives 2 2 3 1 2 1
      Scenario.data Scenario.principal_components ∅
    = ((g', h', []), Some (Other ValueError))
    /\ g' <> data_reconstruction Scenario.data Scenario.principal_components 1.
Proof.
  apply (grid_rejects_a_wrong_size Scenario.fives 2 2 3 1 2 1
           Scenario.data Scenario.principal_components ∅).
  - lia.
  - lia.
  - reflexivity.
  - simpl. lia.
Defined.

End GridTheorems.
